(** * basal: the Dexcom session poller (package dex) and the trigger
      combinators (package trigger), embedded and verified.

    The embedding is shallow.  Package dex is [Module dex]: the trend table,
    the date pattern, [Session.Tail] and [Session.Stream].  Package trigger
    is [Module trigger]: the four trigger kinds with Observe, Active and
    String, and the predicate library.  The properties follow the two
    modules.

    What the program takes from outside is given to the model as data.  The
    remote service is a script of answers consumed by the loop of Tail; the
    clock and the batches Tail returns are a list of polls consumed by the
    loop of Stream.  Both loops run for ever in the source; a script that
    ends leaves the model in the state the loop has reached.

    Library functions are modelled by what they compute: regexp matching by
    a backtracking matcher for datePat, [strconv.ParseInt] by a decimal
    parser with the int64 range check, [float64] by the binary64 operations
    of SpecFloat, [time.Time] by the nanoseconds since the Unix epoch. *)

From Stdlib Require Import ZArith Lia String Ascii List Bool Sorted.
From Stdlib Require Import SpecFloat DecimalString.
From stdpp Require Import base option list gmap sorting.

Local Open Scope string_scope.
Local Open Scope list_scope.
Local Open Scope Z_scope.

(** ** Machine integers and floats, as Go has them *)

Definition minInt64 : Z := - 2 ^ 63.
Definition maxInt64 : Z := 2 ^ 63 - 1.

(** Two's-complement wrap-around of [int64] (Go's [int] on 64-bit targets). *)
Definition wrap64 (x : Z) : Z := (x + 2 ^ 63) mod 2 ^ 64 - 2 ^ 63.

(** IEEE 754 binary64, Go's [float64]. *)
Definition float64 : Type := spec_float.
Definition prec64 : Z := 53.
Definition emax64 : Z := 1024.

(** The conversion [float64(x)] of an integer, rounding to nearest even. *)
Definition float64_of_int (x : Z) : float64 := binary_normalize prec64 emax64 x 0 false.
Definition fadd : float64 -> float64 -> float64 := SFadd prec64 emax64.
Definition fdiv : float64 -> float64 -> float64 := SFdiv prec64 emax64.
Definition flt : float64 -> float64 -> bool := SFltb.
Definition fgt (x y : float64) : bool := SFltb y x.
Definition fzero : float64 := S754_zero false.


(** ** Package dex *)

Module dex.

(** *** Time

    [time.Time] is kept as the wall-clock instant in nanoseconds since the
    Unix epoch; [time.Duration] is an [int64] count of nanoseconds. *)

Definition Time : Type := Z.
Definition Duration : Type := Z.

Definition Second : Duration := 1000000000.
Definition Minute : Duration := 60 * Second.

Definition Unix (sec nsec : Z) : Time := sec * Second + nsec.
Definition After (t u : Time) : bool := u <? t.
Definition Add (t : Time) (d : Duration) : Time := t + d.

(** [t.Sub(u)] saturates at the ends of the [Duration] range. *)
Definition Sub (t u : Time) : Duration :=
  Z.max minInt64 (Z.min maxInt64 (t - u)).

(** [d.Minutes()]: [float64(d / Minute) + float64(d % Minute) / (60 * 1e9)]. *)
Definition Minutes (d : Duration) : float64 :=
  fadd (float64_of_int (Z.quot d Minute))
       (fdiv (float64_of_int (Z.rem d Minute)) (float64_of_int 60000000000)).

(** *** Trends

    [type Dir int], with the constants numbered by [iota].  The constant the
    source calls [None] is [DirNone] here, to keep [option]'s [None] usable. *)

Definition Dir : Type := Z.

Definition DirNone : Dir := 0.
Definition DoubleUp : Dir := 1.
Definition SingleUp : Dir := 2.
Definition FortyFiveUp : Dir := 3.
Definition Flat : Dir := 4.
Definition FortyFiveDown : Dir := 5.
Definition SingleDown : Dir := 6.
Definition DoubleDown : Dir := 7.
Definition NotComputable : Dir := 8.
Definition RateOutOfRange : Dir := 9.

Definition Arrow (d : Dir) : string :=
  match d with
  | 0 => ""
  | 1 => "⇈"
  | 2 => "↑"
  | 3 => "⇗"
  | 4 => "→"
  | 5 => "⇘"
  | 6 => "↓"
  | 7 => "⇊"
  | _ => "?"
  end.

Definition numToDir : gmap Z Dir :=
  <[0 := DirNone]> (<[1 := DoubleUp]> (<[2 := SingleUp]> (<[3 := FortyFiveUp]>
  (<[4 := Flat]> (<[5 := FortyFiveDown]> (<[6 := SingleDown]> (<[7 := DoubleDown]>
  (<[8 := NotComputable]> (<[9 := RateOutOfRange]> ∅))))))))).

(** Indexing a Go map: a missing key yields the zero value of the element
    type, here [Dir(0)]. *)
Definition index (m : gmap Z Dir) (k : Z) : Dir := default 0 (m !! k).

(** *** Records *)

Record Entry : Type := mkEntry {
  Time_ : Time;      (* field Time *)
  Value : Z;
  Dir_ : Dir;        (* field Dir *)
  Raw : string
}.

(** The zero [Entry]; [time.Time{}] is January 1, year 1. *)
Definition zeroTime : Time := Unix (-62135596800) 0.
Definition zeroEntry : Entry := mkEntry zeroTime 0 0 "".

Record entryJson : Type := mkEntryJson {
  WT : string;
  Trend : Z;
  jValue : Z        (* field Value *)
}.

Record Session : Type := mkSession {
  token : string;
  path : string;
  user : string;
  pass : string
}.

Inductive error : Type :=
| ErrTransport (msg : string)
| ErrGivingUp (tries : Z)
| ErrUnmarshal (body : string)
| ErrNoMatch (wt : string)
| ErrSyntax (s : string)
| ErrRange (s : string).

Inductive result (A : Type) : Type :=
| Ok (a : A)
| Err (e : error)
| Panic.
Arguments Ok {A} a.
Arguments Err {A} e.
Arguments Panic {A}.

(** *** datePat = [.*\(([^)]+)\).*]

    A backtracking matcher in continuation-passing style: a greedy
    repetition tries the longest run first, which is Go's leftmost-first
    rule. *)

Section Backtrack.
Context {R : Type}.

Fixpoint star (cls : ascii -> bool) (k : string -> option R) (s : string) : option R :=
  match s with
  | String c s' =>
      if cls c then
        match star cls k s' with
        | Some r => Some r
        | None => k s
        end
      else k s
  | EmptyString => k s
  end.

Definition plus (cls : ascii -> bool) (k : string -> option R) (s : string) : option R :=
  match s with
  | String c s' => if cls c then star cls k s' else None
  | EmptyString => None
  end.

Definition lit (c0 : ascii) (k : string -> option R) (s : string) : option R :=
  match s with
  | String c s' => if Ascii.eqb c c0 then k s' else None
  | EmptyString => None
  end.
End Backtrack.

(** [.] is any character but a newline; [[^)]] any character but [)]. *)
Definition dot (c : ascii) : bool := negb (Ascii.eqb c "010").
Definition notRParen (c : ascii) : bool := negb (Ascii.eqb c ")").

(** The text of [s] that lies before its suffix [rest]. *)
Definition upto (s rest : string) : string :=
  String.substring 0 (String.length s - String.length rest) s.

(** A match of datePat that starts at the head of [s]: the whole match and
    the text of group 1. *)
Definition datePat_here (s : string) : option (list string) :=
  star dot (fun s1 =>
  lit "(" (fun s2 =>
  plus notRParen (fun s3 =>
  lit ")" (fun s4 =>
  star dot (fun s5 => Some [upto s s5; upto s2 s3]) s4) s3) s2) s1) s.

(** [datePat.FindStringSubmatch]: the leftmost match, [None] for nil. *)
Fixpoint FindStringSubmatch (s : string) : option (list string) :=
  match datePat_here s with
  | Some m => Some m
  | None =>
      match s with
      | String _ s' => FindStringSubmatch s'
      | EmptyString => None
      end
  end.

(** *** strconv.ParseInt(s, 10, 64)

    ParseInt takes off the sign and has ParseUint read the digits.  ParseUint
    goes through the characters from the left and returns at the first one
    that is no digit (a syntax error) or at the first digit that takes the
    number out of a uint64 (a range error), whichever comes first. *)

Definition maxUint64 : Z := 2 ^ 64 - 1.

Definition digit (c : ascii) : option Z :=
  let n := Z.of_N (N_of_ascii c) in
  if (48 <=? n) && (n <=? 57) then Some (n - 48) else None.

Inductive scanned : Type :=
| Number (n : Z)
| SyntaxError
| RangeError.

(** The loop of ParseUint for base 10 and 64 bits, [n] a uint64. *)
Fixpoint ParseUint_loop (n : Z) (s : string) : scanned :=
  match s with
  | EmptyString => Number n
  | String c s' =>
      match digit c with
      | None => SyntaxError
      | Some d =>
          let cutoff := Z.quot maxUint64 10 + 1 in
          if cutoff <=? n then RangeError
          else
            let n := n * 10 in
            let n1 := (n + d) mod 2 ^ 64 in
            if (n1 <? n) || (maxUint64 <? n1) then RangeError
            else ParseUint_loop n1 s'
      end
  end.

Definition ParseUint (s : string) : scanned :=
  match s with
  | EmptyString => SyntaxError
  | _ => ParseUint_loop 0 s
  end.

Definition ParseInt (s : string) : result Z :=
  match s with
  | EmptyString => Err (ErrSyntax s)
  | String c0 r =>
      let '(neg, body) :=
        if Ascii.eqb c0 "+" then (false, r)
        else if Ascii.eqb c0 "-" then (true, r)
        else (false, s) in
      match ParseUint body with
      | SyntaxError => Err (ErrSyntax s)
      | RangeError => Err (ErrRange s)
      | Number un =>
          let cutoff := 2 ^ 63 in
          if negb neg && (cutoff <=? un) then Err (ErrRange s)
          else if neg && (cutoff <? un) then Err (ErrRange s)
          else Ok (if neg then - un else un)
      end
  end.

(** *** Session.Tail

    The remote service is a script of answers, one [Exchange] per turn of
    the fetch loop: what [client.Do] gives for the query and what
    [s.refresh] gives if the loop reaches it. *)

Inductive Body : Type :=
| BodyUnreadable (e : error)                              (* ioutil.ReadAll fails *)
| BodyBytes (raw : string) (ejs : option (list entryJson)). (* json.Unmarshal, None on error *)

Inductive DoResult : Type :=
| DoFail (e : error)
| DoResp (StatusCode : Z) (body : Body).

Inductive LoginResult : Type :=
| LoginFail (e : error)
| LoginOk (tok : string) (saved : bool).

Record Exchange : Type := mkExchange {
  answer : DoResult;
  relogin : LoginResult
}.

Inductive effect : Type :=
| Query (sessionID : string) (howlong : Duration)   (* client.Do(req) *)
| Login (user : string)                              (* s.login() *)
| LogSaveFailed.

(** [s.refresh()]: log in again and save; a failed save is only logged. *)
Definition refresh (s : Session) (r : LoginResult) : Session * option error * list effect :=
  match r with
  | LoginFail e => (s, Some e, [Login (user s)])
  | LoginOk tok saved =>
      (mkSession tok (path s) (user s) (pass s), None,
       Login (user s) :: (if saved then [] else [LogSaveFailed]))
  end.

Inductive fetched : Type :=
| Broke (body : Body)       (* left the loop with a response below 400 *)
| Failed (e : error)        (* return nil, err *)
| Retrying.                 (* the script ended with the loop still turning *)

(** The [for] loop of Tail, lines 210-247.  [tries] is declared in the loop
    body, as in the source.  The request is built from the session token and
    from [howlong] (minutes and maxCount), which [Query] records;
    [http.NewRequest] on the fixed query URL is taken to succeed. *)
Fixpoint Tail_loop (howlong : Duration) (s : Session) (script : list Exchange)
  : fetched * Session * list effect :=
  match script with
  | [] => (Retrying, s, [])
  | x :: script' =>
      let q := Query (token s) howlong in
      let tries := 0 in
      match answer x with
      | DoFail e => (Failed e, s, [q])
      | DoResp StatusCode body =>
          if StatusCode <? 400 then (Broke body, s, [q])
          else
            match refresh s (relogin x) with
            | (s', Some e, fx) => (Failed e, s', q :: fx)
            | (s', None, fx) =>
                let tries := tries + 1 in
                if tries =? 5 then (Failed (ErrGivingUp tries), s', q :: fx)
                else
                  let '(r, s'', fx') := Tail_loop howlong s' script' in
                  (r, s'', q :: fx ++ fx')
            end
      end
  end.

(** [entries[j].f = v] on a slice: an index out of range panics. *)
Definition update (entries : list Entry) (j : Z) (f : Entry -> Entry) : result (list Entry) :=
  if (0 <=? j) && (j <? Z.of_nat (length entries))
  then Ok (alter f (Z.to_nat j) entries)
  else Panic.

Definition convert (ej : entryJson) (msecs : Z) (old : Entry) : Entry :=
  mkEntry (Unix (Z.quot msecs 1000) 0) (jValue ej) (index numToDir (Trend ej)) (Raw old).

(** The [for i, ej := range ejs] loop, lines 266-281. *)
Fixpoint Tail_fill (ejs : list entryJson) (i : Z) (entries : list Entry) : result (list Entry) :=
  match ejs with
  | [] => Ok entries
  | ej :: ejs' =>
      match FindStringSubmatch (WT ej) with
      | Some [_; m1] =>
          match ParseInt m1 with
          | Ok msecs =>
              let j := Z.of_nat (length entries) - i - 1 in
              match update entries j (convert ej msecs) with
              | Ok entries' => Tail_fill ejs' (i + 1) entries'
              | Err e => Err e
              | Panic => Panic
              end
          | Err e => Err e
          | Panic => Panic
          end
      | _ => Err (ErrNoMatch (WT ej))
      end
  end.

(** What a call of Tail comes to: the pair it returns, a panic, or no
    return within the script. *)
Inductive returned : Type :=
| Return (entries : list Entry) (err : option error)
| Panics
| NoReturn.

Definition Tail_decode (body : Body) : returned :=
  match body with
  | BodyUnreadable e => Return [] (Some e)
  | BodyBytes raw None => Return [] (Some (ErrUnmarshal raw))
  | BodyBytes raw (Some ejs) =>
      match Tail_fill ejs 0 (replicate (length ejs) zeroEntry) with
      | Ok entries => Return entries None
      | Err e => Return [] (Some e)
      | Panic => Panics
      end
  end.

Definition Tail (howlong : Duration) (s : Session) (script : list Exchange)
  : returned * Session * list effect :=
  match Tail_loop howlong s script with
  | (Broke body, s', fx) => (Tail_decode body, s', fx)
  | (Failed e, s', fx) => (Return [] (Some e), s', fx)
  | (Retrying, s', fx) => (NoReturn, s', fx)
  end.

(** *** Session.Stream

    One [poll] is what the world gives to one turn of the loop: the two
    clock readings and the pair [s.Tail(dur)] returns. *)

Record poll : Type := mkPoll {
  now : Time;                   (* time.Now(), line 303 *)
  since : Time;                 (* time.Now() inside time.Since, line 317 *)
  tail_entries : list Entry;
  tail_err : option error
}.

Record state : Type := mkState {
  begin : Time;
  eta : Time;
  penalty : Duration;
  total : Duration
}.

Inductive action : Type :=
| Sleep (d : Duration)
| CallTail (dur : Duration)
| Send (e : Entry)
| LogFailed
| LogSampled (total : Duration)
| Close.

(** The inner [for i := range ents], lines 324-330: what is sent, and the
    entry [newest] points to at the end. *)
Fixpoint scan (begin : Time) (ents : list Entry) (newest : option Entry)
  : list action * option Entry :=
  match ents with
  | [] => ([], newest)
  | e :: ents' =>
      if After (Time_ e) begin then
        let '(out, newest') := scan begin ents' (Some e) in (Send e :: out, newest')
      else scan begin ents' newest
  end.

(** One turn of the loop, lines 303-340; [None] for the state when the
    function returns. *)
Definition turn (st : state) (p : poll) : list action * option state :=
  let wait := if After (eta st) (now p) then [Sleep (Sub (eta st) (now p))] else [] in
  let total1 := wrap64 (total st + penalty st) in
  let penalty1 :=
    if penalty st <? 10 * Second then wrap64 (penalty st + Second) else penalty st in
  let dur := wrap64 (Sub (since p) (begin st) + 5 * Minute) in
  let pre := wait ++ [Sleep (penalty st); CallTail dur] in
  match tail_err p with
  | Some _ => (pre ++ [LogFailed], None)
  | None =>
      let '(out, newest) := scan (begin st) (tail_entries p) None in
      match newest with
      | Some e =>
          (pre ++ out ++ [LogSampled total1],
           Some (mkState (Time_ e) (Add (Time_ e) (5 * Minute)) (0 * Second) (0 * Second)))
      | None => (pre ++ out, Some (mkState (begin st) (eta st) penalty1 total1))
      end
  end.

(** The loop over the polls; the deferred [close(out)] runs on return. *)
Fixpoint loop (st : state) (polls : list poll) : list action * option state :=
  match polls with
  | [] => ([], Some st)
  | p :: polls' =>
      match turn st p with
      | (acts, Some st') =>
          let '(acts', fin) := loop st' polls' in (acts ++ acts', fin)
      | (acts, None) => (acts ++ [Close], None)
      end
  end.

(** [start] is the first [time.Now()], line 298. *)
Definition Stream (begin0 : Time) (start : Time) (polls : list poll)
  : list action * option state :=
  loop (mkState begin0 start (0 * Second) (0 * Second)) polls.

(** The entries sent on [out], in order. *)
Definition sent (acts : list action) : list Entry :=
  omap (fun a => match a with Send e => Some e | _ => None end) acts.

(** *** Vocabulary for the statements about Tail *)

(** The millisecond timestamp the loop body reads from a record. *)
Definition msecs_of (ej : entryJson) : result Z :=
  match FindStringSubmatch (WT ej) with
  | Some [_; m1] => ParseInt m1
  | _ => Err (ErrNoMatch (WT ej))
  end.

Definition malformed (ej : entryJson) : bool :=
  match msecs_of ej with
  | Ok _ => false
  | _ => true
  end.

(** The entry a record with timestamp [msecs] gives. *)
Definition entry_of (ej : entryJson) (msecs : Z) : Entry :=
  mkEntry (Unix (Z.quot msecs 1000) 0) (jValue ej) (index numToDir (Trend ej)) "".

(** The records of a batch, each converted, in the order of the batch. *)
Fixpoint entries_of (ejs : list entryJson) : result (list Entry) :=
  match ejs with
  | [] => Ok []
  | ej :: ejs' =>
      match msecs_of ej with
      | Ok msecs =>
          match entries_of ejs' with
          | Ok ens => Ok (entry_of ej msecs :: ens)
          | Err e => Err e
          | Panic => Panic
          end
      | Err e => Err e
      | Panic => Panic
      end
  end.

Definition times (ens : list Entry) : list Time := List.map Time_ ens.

Definition is_query (x : effect) : bool :=
  match x with
  | Query _ _ => true
  | _ => false
  end.

(** The number of requests Tail sent to the query URL. *)
Definition queries (fx : list effect) : nat := length (List.filter is_query fx).

(** The trend table as the specification words it, with [DirNone] for a
    code outside it. *)
Definition trend_table (code : Z) : Dir :=
  match code with
  | 0 => DirNone
  | 1 => DoubleUp
  | 2 => SingleUp
  | 3 => FortyFiveUp
  | 4 => Flat
  | 5 => FortyFiveDown
  | 6 => SingleDown
  | 7 => DoubleDown
  | 8 => NotComputable
  | 9 => RateOutOfRange
  | _ => DirNone
  end.

Definition ascending (ts : list Z) : Prop := StronglySorted Z.lt ts.
Definition nondecreasing (ts : list Z) : Prop := StronglySorted Z.le ts.
Definition descending (ts : list Z) : Prop := StronglySorted (flip Z.lt) ts.

(** *** Sample data *)

Definition a_session : Session := mkSession "token-1" "/home/u/.dex.u" "u" "secret".

Definition a_record (wt : string) (trend value : Z) : entryJson :=
  mkEntryJson wt trend value.

(** A response below 400 that carries the given records. *)
Definition serves (ejs : list entryJson) : Exchange :=
  mkExchange (DoResp 200 (BodyBytes "[...]" (Some ejs))) (LoginFail (ErrTransport "unused")).

(** A response that makes Tail take the token for expired, with a login
    that then succeeds. *)
Definition expired : Exchange :=
  mkExchange (DoResp 401 (BodyBytes "" None)) (LoginOk "token-2" true).

(** *** Vocabulary for the statements about Stream *)

(** The entries of a batch that are newer than the cursor. *)
Definition fresh (b : Time) (ents : list Entry) : list Entry :=
  List.filter (fun e => After (Time_ e) b) ents.

(** A poll that fetches without error and brings nothing new. *)
Definition quiet (b : Time) (p : poll) : Prop :=
  tail_err p = None /\ fresh b (tail_entries p) = [].

(** The time of the last entry of [ens], or [b] when there is none. *)
Definition newest_time (b : Time) (ens : list Entry) : Time :=
  default b (last (times ens)).

Definition an_entry (sec value : Z) : Entry := mkEntry (Unix sec 0) value Flat "".

Definition a_poll (at_sec : Z) (ents : list Entry) : poll :=
  mkPoll (Unix at_sec 0) (Unix at_sec 0) ents None.

(** The penalty is a whole number of seconds from 0 to 10. *)
Definition penalty_in_range (st : state) : Prop :=
  exists k, 0 <= k <= 10 /\ penalty st = k * Second.

Definition three_polls : list poll :=
  [a_poll 1010 [an_entry 700 110; an_entry 1000 112; an_entry 1300 115];
   a_poll 1600 [an_entry 1000 112; an_entry 1300 115];
   a_poll 1601 [an_entry 1300 115; an_entry 1600 121; an_entry 1900 126]].

(** *** Vocabulary for the statements about datePat *)

(** Every character of [s] is in the class [cls]. *)
Fixpoint every (cls : ascii -> bool) (s : string) : bool :=
  match s with
  | EmptyString => true
  | String c s' => cls c && every cls s'
  end.

(** [s] holds the text [g] between an opening parenthesis and the next
    closing one, [g] not empty. *)
Definition has_group (s g : string) : Prop :=
  exists a b,
    s = String.append a (String "(" (String.append g (String ")" b)))
    /\ g <> "" /\ every notRParen g = true.

(** The timestamp of a record does not parse: WT shows no parenthesised
    text, or the text datePat takes from it is not an int64 in base 10. *)
Definition unparsable (ej : entryJson) : Prop :=
  (forall g, ~ has_group (WT ej) g)
  \/ exists whole g e,
       FindStringSubmatch (WT ej) = Some [whole; g] /\ ParseInt g = Err e.

(** *** The rest of package dex *)

Definition Emoji (d : Dir) : string :=
  match d with
  | 0 => ""
  | 1 => "⏫"
  | 2 => "⬆️"
  | 3 => "↗️"
  | 4 => "➡️"
  | 5 => "↘️"
  | 6 => "⬇️"
  | 7 => "⏬"
  | _ => "?"
  end.

(** [restore(path)], with [saved] the token the file at [path] decodes to,
    [None] when it does not open or does not decode (restore returns nil). *)
Definition restore (path : string) (saved : option string) : option Session :=
  match saved with
  | Some tok => Some (mkSession tok path "" "")
  | None => None
  end.

(** [Dial(user, pass)], lines 166-186: the pair it returns and what it did.
    [prefix] is what [os.ExpandEnv("$HOME/.dex.")] gives, [r] what
    [s.login()] and [s.save()] give when Dial gets to them. *)
Definition Dial (user pass : string) (prefix : string) (saved : option string)
    (r : LoginResult) : option Session * option error * list effect :=
  let path := String.append prefix user in
  match restore path saved with
  | Some s => (Some (mkSession (token s) (dex.path s) user pass), None, [])
  | None =>
      match r with
      | LoginFail e => (None, Some e, [Login user])
      | LoginOk tok saved =>
          (Some (mkSession tok path user pass), None,
           Login user :: (if saved then [] else [LogSaveFailed]))
      end
  end.

(** *** Vocabulary for the further statements about dex *)

(** [k] fails on [s] and on every suffix of [s]. *)
Fixpoint fails_all {R : Type} (k : string -> option R) (s : string) : Prop :=
  k s = None
  /\ match s with
     | EmptyString => True
     | String _ s' => fails_all k s'
     end.

Definition notLParen (c : ascii) : bool := negb (Ascii.eqb c "(").

(** An answer of at least 400 followed by a login that succeeds. *)
Definition expires (x : Exchange) : Prop :=
  exists StatusCode body tok saved,
    answer x = DoResp StatusCode body /\ 400 <= StatusCode
    /\ relogin x = LoginOk tok saved.

Definition is_login (x : effect) : bool :=
  match x with
  | Login _ => true
  | _ => false
  end.

(** The number of logins Tail made. *)
Definition logins (fx : list effect) : nat := length (List.filter is_login fx).

(** The lookback durations Stream passed to Tail, in order. *)
Definition lookbacks (acts : list action) : list Duration :=
  omap (fun a => match a with CallTail dur => Some dur | _ => None end) acts.

Definition is_close (a : action) : bool :=
  match a with
  | Close => true
  | _ => false
  end.

(** The durations Stream slept, in order. *)
Definition sleeps (acts : list action) : list Duration :=
  omap (fun a => match a with Sleep d => Some d | _ => None end) acts.

End dex.

(** ** Package trigger *)

Module trigger.

(** Dereferencing a nil pointer panics; [run A] is a result or that panic. *)
Inductive run (A : Type) : Type :=
| Returns (a : A)
| NilPanic.
Arguments Returns {A} a.
Arguments NilPanic {A}.

Definition bind {A B : Type} (m : run A) (k : A -> run B) : run B :=
  match m with
  | Returns a => k a
  | NilPanic => NilPanic
  end.

Notation "x <- m ;; k" := (bind m (fun x => k))
  (at level 100, m at next level, right associativity).

(** [*p] for a pointer [p]. *)
Definition deref {A : Type} (p : option A) : run A :=
  match p with
  | Some a => Returns a
  | None => NilPanic
  end.

#[local] Set Warnings "-register-all".

(** The four implementations of the [Trigger] interface, each with the
    state it holds; a nil [*dex.Entry] is [None].  A combinator holds its
    children; one trigger value is not placed twice in a tree. *)
Inductive Trigger : Type :=
| predicateTrigger (p : dex.Entry -> string) (cur : option dex.Entry)
| predicate2Trigger (p : dex.Entry -> dex.Entry -> string) (last cur : option dex.Entry)
| anyTrigger (a : list Trigger)
| allTrigger (a : list Trigger).

Definition Predicate (p : dex.Entry -> string) : Trigger := predicateTrigger p None.
Definition Predicate2 (p : dex.Entry -> dex.Entry -> string) : Trigger :=
  predicate2Trigger p None None.
Definition Any (trigger : list Trigger) : Trigger := anyTrigger trigger.
Definition All (trigger : list Trigger) : Trigger := allTrigger trigger.

(** *** errs: the messages of the recorded errors *)

Definition errs : Type := list string.

Definition record (e : errs) (err : option string) : errs :=
  match err with
  | None => e
  | Some m => e ++ [m]
  end.

(** [strings.Join]. *)
Definition Join (strs : list string) (sep : string) : string := String.concat sep strs.

Definition err (e : errs) : option string :=
  match e with
  | [] => None
  | _ => Some (Join e ",")
  end.

(** *** Observe, Active, String *)

Fixpoint Observe (t : Trigger) (e : dex.Entry) : Trigger * option string :=
  match t with
  | predicateTrigger p _ => (predicateTrigger p (Some e), None)
  | predicate2Trigger p _ cur => (predicate2Trigger p cur (Some e), None)
  | anyTrigger a =>
      let rs := List.map (fun t => Observe t e) a in
      (anyTrigger (List.map fst rs), err (fold_left record (List.map snd rs) []))
  | allTrigger a =>
      let rs := List.map (fun t => Observe t e) a in
      (allTrigger (List.map fst rs), err (fold_left record (List.map snd rs) []))
  end.

Definition nonempty (s : string) : bool := negb (String.eqb s "").

(** The [range] loops of the combinators, over the method of the children
    they call. *)

(** anyTrigger.Active, lines 36-41: return true at the first active child. *)
Definition range_any (Active : Trigger -> run bool) : list Trigger -> run bool :=
  fix any (a : list Trigger) : run bool :=
    match a with
    | [] => Returns false
    | t :: a' => b <- Active t ;; if b then Returns true else any a'
    end.

(** allTrigger.Active, lines 65-69: [active = active && t.Active()], which
    does not call [t.Active()] once [active] is false. *)
Definition range_all (Active : Trigger -> run bool) : bool -> list Trigger -> run bool :=
  fix all (active : bool) (a : list Trigger) : run bool :=
    match a with
    | [] => Returns active
    | t :: a' => if active then b <- Active t ;; all b a' else all false a'
    end.

(** The loops of the two String methods, lines 46-50 and 74-78. *)
Definition range_strs (Active : Trigger -> run bool) (String_ : Trigger -> run string)
  : list Trigger -> run (list string) :=
  fix each (a : list Trigger) : run (list string) :=
    match a with
    | [] => Returns []
    | t :: a' =>
        b <- Active t ;;
        if b then s <- String_ t ;; strs <- each a' ;; Returns (s :: strs)
        else each a'
    end.

Fixpoint Active (t : Trigger) : run bool :=
  match t with
  | predicateTrigger p cur =>
      c <- deref cur ;; Returns (nonempty (p c))
  | predicate2Trigger p last cur =>
      match last with
      | None => Returns false
      | Some l => c <- deref cur ;; Returns (nonempty (p l c))
      end
  | anyTrigger a => range_any Active a
  | allTrigger a => range_all Active true a
  end.

(** [fmt.Sprintf("Any(%s)", list)] and [fmt.Sprintf("All(%s)", list)]. *)
Definition Sprintf_s (name list : string) : string :=
  String.append name (String.append "(" (String.append list ")")).

Fixpoint String_ (t : Trigger) : run string :=
  match t with
  | predicateTrigger p cur =>
      c <- deref cur ;; Returns (p c)
  | predicate2Trigger p last cur =>
      match last with
      | None => Returns ""
      | Some l => c <- deref cur ;; Returns (p l c)
      end
  | anyTrigger a =>
      strs <- range_strs Active String_ a ;;
      Returns (Sprintf_s "Any" (Join strs ","))
  | allTrigger a =>
      strs <- range_strs Active String_ a ;;
      Returns (Sprintf_s "All" (Join strs ","))
  end.

(** *** The predicate library *)

(** The verb [%d]. *)
Definition itoa (x : Z) : string := NilZero.string_of_int (Z.to_int x).

(** The verb [%.1f]: the exact value rounded to tenths, ties to even. *)
Definition tenths (m : positive) (e : Z) : Z :=
  if 0 <=? e then 10 * Z.pos m * 2 ^ e
  else
    let d := 2 ^ (- e) in
    let q := (10 * Z.pos m) / d in
    let r := (10 * Z.pos m) mod d in
    if 2 * r <? d then q
    else if d <? 2 * r then q + 1
    else if Z.even q then q else q + 1.

Definition ftoa1 (f : float64) : string :=
  match f with
  | S754_nan => "NaN"
  | S754_infinity false => "+Inf"
  | S754_infinity true => "-Inf"
  | S754_zero s => String.append (if s then "-" else "") "0.0"
  | S754_finite s m e =>
      let t := tenths m e in
      String.append (if s then "-" else "")
        (String.append (itoa (t / 10)) (String.append "." (itoa (t mod 10))))
  end.

Definition Below (bg : Z) : Trigger :=
  Predicate (fun e =>
    if dex.Value e <? bg
    then String.append (itoa (dex.Value e)) (String.append " < " (itoa bg))
    else "").

Definition Above (bg : Z) : Trigger :=
  Predicate (fun e =>
    if bg <? dex.Value e
    then String.append (itoa (dex.Value e)) (String.append " > " (itoa bg))
    else "").

Definition Arrow (dir : list dex.Dir) : Trigger :=
  Predicate (fun e =>
    (fix range (dir : list dex.Dir) : string :=
       match dir with
       | [] => ""
       | d :: dir' => if d =? dex.Dir_ e then dex.Arrow d else range dir'
       end) dir).

(** The rate of line 97, in mg/dL per minute. *)
Definition rate (e0 e1 : dex.Entry) : float64 :=
  fdiv (float64_of_int (wrap64 (dex.Value e1 - dex.Value e0)))
       (dex.Minutes (dex.Sub (dex.Time_ e1) (dex.Time_ e0))).

Definition Delta (d : float64) : Trigger :=
  Predicate2 (fun e0 e1 =>
    let delta := rate e0 e1 in
    if flt delta fzero && flt d fzero && flt delta d then
      String.append "Delta("
        (String.append (ftoa1 delta) (String.append " < " (ftoa1 d)))
    else if fgt delta fzero && fgt d fzero && fgt delta d then
      String.append "Delta("
        (String.append (ftoa1 delta) (String.append " > " (ftoa1 d)))
    else "").

(** Observing a sequence of entries, oldest first. *)
Definition observes (t : Trigger) (es : list dex.Entry) : Trigger :=
  fold_left (fun t e => fst (Observe t e)) es t.

(** *** Vocabulary for the statements about triggers *)

(** Every leaf of the tree holds a current entry. *)
Fixpoint observed (t : Trigger) : bool :=
  match t with
  | predicateTrigger _ cur => bool_decide (is_Some cur)
  | predicate2Trigger _ _ cur => bool_decide (is_Some cur)
  | anyTrigger a => forallb observed a
  | allTrigger a => forallb observed a
  end.

(** The descriptions of the children that are active now, in order. *)
Fixpoint descriptions (a : list Trigger) : list string :=
  match a with
  | [] => []
  | t :: a' =>
      match Active t, String_ t with
      | Returns true, Returns d => d :: descriptions a'
      | _, _ => descriptions a'
      end
  end.

(** The call [f t] returns, it does not panic. *)
Definition answers {A : Type} (f : Trigger -> run A) (t : Trigger) : Prop :=
  exists r, f t = Returns r.

(** The condition of Delta on a rate [r] and a threshold [d], lines 98-100. *)
Definition crosses (r d : float64) : bool :=
  (flt r fzero && flt d fzero && flt r d) || (fgt r fzero && fgt d fzero && fgt r d).

(** An entry with value [v], taken [m] minutes after the epoch. *)
Definition reading (m v : Z) : dex.Entry := dex.mkEntry (dex.Unix (m * 60) 0) v dex.Flat "".

Section Induction.
Variable P : Trigger -> Prop.
Hypothesis leaf1 : forall p cur, P (predicateTrigger p cur).
Hypothesis leaf2 : forall p last cur, P (predicate2Trigger p last cur).
Hypothesis node_any : forall a, Forall P a -> P (anyTrigger a).
Hypothesis node_all : forall a, Forall P a -> P (allTrigger a).

(** Induction over a trigger tree, with the hypothesis for every child. *)
Fixpoint Trigger_tree_ind (t : Trigger) : P t :=
  let children :=
    fix children (a : list Trigger) : Forall P a :=
      match a with
      | [] => List.Forall_nil P
      | t :: a' => @List.Forall_cons Trigger P t a' (Trigger_tree_ind t) (children a')
      end in
  match t with
  | predicateTrigger p cur => leaf1 p cur
  | predicate2Trigger p last cur => leaf2 p last cur
  | anyTrigger a => node_any a (children a)
  | allTrigger a => node_all a (children a)
  end.
End Induction.

End trigger.

(** * Properties of package dex *)

Section NumToDir.
Import dex.

Lemma index_numToDir (k : Z) :
  index numToDir k = if (0 <=? k) && (k <=? 9) then k else DirNone.
Proof.
  unfold index, numToDir.
  destruct (decide (k = 0)) as [->|]; [reflexivity|rewrite lookup_insert_ne by congruence].
  destruct (decide (k = 1)) as [->|]; [reflexivity|rewrite lookup_insert_ne by congruence].
  destruct (decide (k = 2)) as [->|]; [reflexivity|rewrite lookup_insert_ne by congruence].
  destruct (decide (k = 3)) as [->|]; [reflexivity|rewrite lookup_insert_ne by congruence].
  destruct (decide (k = 4)) as [->|]; [reflexivity|rewrite lookup_insert_ne by congruence].
  destruct (decide (k = 5)) as [->|]; [reflexivity|rewrite lookup_insert_ne by congruence].
  destruct (decide (k = 6)) as [->|]; [reflexivity|rewrite lookup_insert_ne by congruence].
  destruct (decide (k = 7)) as [->|]; [reflexivity|rewrite lookup_insert_ne by congruence].
  destruct (decide (k = 8)) as [->|]; [reflexivity|rewrite lookup_insert_ne by congruence].
  destruct (decide (k = 9)) as [->|]; [reflexivity|rewrite lookup_insert_ne by congruence].
  rewrite lookup_empty. simpl.
  destruct (0 <=? k) eqn:H0; destruct (k <=? 9) eqn:H9; simpl; try reflexivity.
  apply Z.leb_le in H0. apply Z.leb_le in H9. lia.
Qed.
End NumToDir.

Section TailDecode.
Import dex.

Lemma ParseInt_no_panic (s : string) : ParseInt s <> Panic.
Proof.
  unfold ParseInt. destruct s as [|c0 r]; [discriminate|].
  destruct (if Ascii.eqb c0 "+" then (false, r)
            else if Ascii.eqb c0 "-" then (true, r) else (false, String c0 r))
    as [neg body].
  destruct (ParseUint body) as [un| |]; try discriminate.
  destruct (negb neg && (2 ^ 63 <=? un)); [discriminate|].
  destruct (neg && (2 ^ 63 <? un)); discriminate.
Qed.

Lemma msecs_of_no_panic (ej : entryJson) : msecs_of ej <> Panic.
Proof.
  unfold msecs_of.
  destruct (FindStringSubmatch (WT ej)) as [[|w [|m1 [|x l]]]|]; try discriminate.
  apply ParseInt_no_panic.
Qed.

Lemma entries_of_no_panic (ejs : list entryJson) : entries_of ejs <> Panic.
Proof.
  induction ejs as [|ej ejs IH]; simpl; [discriminate|].
  pose proof (msecs_of_no_panic ej) as Hm.
  destruct (msecs_of ej); try discriminate; [|congruence].
  destruct (entries_of ejs); try discriminate. congruence.
Qed.

Lemma alter_last_zero (f : Entry -> Entry) (k : nat) (suffix : list Entry) :
  alter f k (replicate (S k) zeroEntry ++ suffix)
  = replicate k zeroEntry ++ f zeroEntry :: suffix.
Proof.
  induction k as [|k IH]; [reflexivity|].
  change (replicate (S (S k)) zeroEntry ++ suffix)
    with (zeroEntry :: (replicate (S k) zeroEntry ++ suffix)).
  change (replicate (S k) zeroEntry ++ f zeroEntry :: suffix)
    with (zeroEntry :: (replicate k zeroEntry ++ f zeroEntry :: suffix)).
  rewrite <- IH. reflexivity.
Qed.

(** The loop fills the slice from its far end: after [i] records the last
    [i] slots hold their entries, newest record last. *)
Lemma Tail_fill_spec (ejs : list entryJson) :
  forall (suffix : list Entry),
    Tail_fill ejs (Z.of_nat (length suffix))
              (replicate (length ejs) zeroEntry ++ suffix)
    = match entries_of ejs with
      | Ok ens => Ok (rev ens ++ suffix)
      | Err e => Err e
      | Panic => Panic
      end.
Proof.
  induction ejs as [|ej ejs IH]; intros suffix; [reflexivity|].
  cbn [Tail_fill entries_of]. unfold msecs_of.
  destruct (FindStringSubmatch (WT ej)) as [[|w [|m1 [|x l]]]|]; try reflexivity.
  destruct (ParseInt m1) as [msecs|e|]; try reflexivity.
  unfold update.
  rewrite length_app, length_replicate.
  replace (Z.of_nat (length (ej :: ejs) + length suffix) - Z.of_nat (length suffix) - 1)
    with (Z.of_nat (length ejs)) by (cbn [length]; lia).
  replace ((0 <=? Z.of_nat (length ejs))
           && (Z.of_nat (length ejs) <? Z.of_nat (length (ej :: ejs) + length suffix)))
    with true
    by (symmetry; apply andb_true_iff; split;
        [apply Z.leb_le|apply Z.ltb_lt]; cbn [length]; lia).
  rewrite Nat2Z.id.
  change (length (ej :: ejs)) with (S (length ejs)).
  rewrite alter_last_zero.
  replace (Z.of_nat (length suffix) + 1)
    with (Z.of_nat (length (convert ej msecs zeroEntry :: suffix)))
    by (cbn [length]; lia).
  rewrite IH.
  destruct (entries_of ejs) as [ens|e|]; try reflexivity.
  cbn [rev]. rewrite <- app_assoc. reflexivity.
Qed.

Lemma Tail_decode_spec (raw : string) (ejs : list entryJson) :
  Tail_decode (BodyBytes raw (Some ejs))
  = match entries_of ejs with
    | Ok ens => Return (rev ens) None
    | Err e => Return [] (Some e)
    | Panic => Panics
    end.
Proof.
  unfold Tail_decode.
  pose proof (Tail_fill_spec ejs []) as H.
  rewrite app_nil_r in H. change (Z.of_nat (length (@nil Entry))) with 0 in H.
  rewrite H.
  destruct (entries_of ejs) as [ens|e|]; try reflexivity.
  rewrite app_nil_r. reflexivity.
Qed.

Lemma entries_of_malformed (ejs : list entryJson) :
  Exists (fun ej => malformed ej = true) ejs ->
  exists e, entries_of ejs = Err e.
Proof.
  induction 1 as [ej ejs H|ej ejs H IH]; simpl.
  - unfold malformed in H. pose proof (msecs_of_no_panic ej).
    destruct (msecs_of ej) as [m|e|]; try discriminate; [eauto|congruence].
  - destruct IH as [e IH]. rewrite IH.
    pose proof (msecs_of_no_panic ej).
    destruct (msecs_of ej) as [m|e'|]; eauto. congruence.
Qed.

Lemma entries_of_wellformed (ejs : list entryJson) :
  Forall (fun ej => malformed ej = false) ejs ->
  exists ens, entries_of ejs = Ok ens /\ length ens = length ejs.
Proof.
  induction 1 as [|ej ejs H HF IH]; simpl; [eauto|].
  destruct IH as (ens & -> & Hlen).
  unfold malformed in H.
  destruct (msecs_of ej) as [m|e|]; try discriminate.
  eexists; split; [reflexivity|]. simpl. congruence.
Qed.
End TailDecode.

Section DatePat.
Import dex.

Lemma star_sound {R : Type} (cls : ascii -> bool) (k : string -> option R) (s : string) :
  forall r, star cls k s = Some r ->
  exists pre rest, s = String.append pre rest /\ every cls pre = true /\ k rest = Some r.
Proof.
  induction s as [|c s IH]; intros r H; cbn [star] in H.
  - exists "", "". repeat split. exact H.
  - destruct (cls c) eqn:Hc.
    + destruct (star cls k s) as [r'|] eqn:Hs.
      * injection H as <-. destruct (IH r' eq_refl) as (pre & rest & -> & Hpre & Hk).
        exists (String c pre), rest. cbn. rewrite Hc, Hpre. repeat split. exact Hk.
      * exists "", (String c s). repeat split. exact H.
    + exists "", (String c s). repeat split. exact H.
Qed.

Lemma star_complete {R : Type} (cls : ascii -> bool) (k : string -> option R) (pre : string) :
  forall rest,
    every cls pre = true -> is_Some (k rest) -> is_Some (star cls k (String.append pre rest)).
Proof.
  induction pre as [|c pre IH]; intros rest Hpre Hk.
  - change (String.append "" rest) with rest.
    destruct rest as [|c rest]; cbn [star]; [exact Hk|].
    destruct (cls c); [|exact Hk]. destruct (star cls k rest); [eauto|exact Hk].
  - cbn in Hpre. apply andb_true_iff in Hpre as [Hc Hpre].
    change (String.append (String c pre) rest) with (String c (String.append pre rest)).
    cbn [star]. rewrite Hc.
    destruct (IH rest Hpre Hk) as [r ->]. eauto.
Qed.

Lemma lit_sound {R : Type} (c0 : ascii) (k : string -> option R) (s : string) (r : R) :
  lit c0 k s = Some r -> exists s', s = String c0 s' /\ k s' = Some r.
Proof.
  destruct s as [|c s]; cbn; [discriminate|].
  destruct (Ascii.eqb c c0) eqn:Hc; [|discriminate].
  apply Ascii.eqb_eq in Hc as ->. eauto.
Qed.

Lemma append_nil (s : string) : String.append "" s = s.
Proof. reflexivity. Qed.

Lemma append_cons (c : ascii) (a b : string) :
  String.append (String c a) b = String c (String.append a b).
Proof. reflexivity. Qed.

Lemma length_append (g rest : string) :
  String.length (String.append g rest) = (String.length g + String.length rest)%nat.
Proof. induction g as [|c g IH]; simpl; [reflexivity|]. rewrite IH. reflexivity. Qed.

Lemma upto_app (g rest : string) : upto (String.append g rest) rest = g.
Proof.
  unfold upto.
  replace (String.length (String.append g rest) - String.length rest)%nat
    with (String.length g).
  - induction g as [|c g IH].
    + destruct rest; reflexivity.
    + change (String c (substring 0 (String.length g) (String.append g rest)) = String c g).
      rewrite IH. reflexivity.
  - rewrite length_append. lia.
Qed.

Lemma datePat_here_sound (s : string) (m : list string) :
  datePat_here s = Some m ->
  exists whole g, m = [whole; g] /\ has_group s g.
Proof.
  unfold datePat_here. intros H.
  apply star_sound in H as (a & s1 & -> & _ & H).
  apply lit_sound in H as (s2 & -> & H).
  destruct s2 as [|c s2]; [discriminate|]. cbn [plus] in H.
  destruct (notRParen c) eqn:Hc; [|discriminate].
  apply star_sound in H as (g & s3 & -> & Hg & H).
  apply lit_sound in H as (s4 & -> & H).
  apply star_sound in H as (p & s5 & -> & _ & H).
  injection H as <-.
  change (String c (String.append g (String ")" (String.append p s5))))
    with (String.append (String c g) (String ")" (String.append p s5))).
  rewrite upto_app.
  eexists _, (String c g). split; [reflexivity|].
  exists a, (String.append p s5). split; [reflexivity|]. split; [discriminate|].
  cbn. rewrite Hc, Hg. reflexivity.
Qed.

Lemma FindStringSubmatch_sound (s : string) :
  forall m, FindStringSubmatch s = Some m ->
  exists whole g, m = [whole; g] /\ has_group s g.
Proof.
  assert (forall c s g, has_group s g -> has_group (String c s) g) as Hcons.
  { intros c s' g (a & b & -> & Hg). exists (String c a), b. split; [reflexivity|exact Hg]. }
  induction s as [|c s IH]; intros m H; cbn [FindStringSubmatch] in H.
  - destruct (datePat_here "") eqn:Hh; [|discriminate]. injection H as <-.
    apply datePat_here_sound. exact Hh.
  - destruct (datePat_here (String c s)) eqn:Hh.
    + injection H as <-. apply datePat_here_sound. exact Hh.
    + destruct (IH m H) as (whole & g & -> & Hg). eauto.
Qed.

Lemma datePat_here_complete (g b : string) :
  g <> "" -> every notRParen g = true ->
  is_Some (datePat_here (String "(" (String.append g (String ")" b)))).
Proof.
  intros Hne Hg. unfold datePat_here.
  apply (star_complete dot _ ""); [reflexivity|]. cbn [lit Ascii.eqb Bool.eqb].
  destruct g as [|c g]; [contradiction|]. cbn in Hg.
  apply andb_true_iff in Hg as [Hc Hg].
  change (String.append (String c g) (String ")" b))
    with (String c (String.append g (String ")" b))).
  cbn [plus]. rewrite Hc.
  apply star_complete; [exact Hg|]. cbn [lit Ascii.eqb Bool.eqb].
  apply (star_complete dot _ ""); [reflexivity|]. eauto.
Qed.

Lemma FindStringSubmatch_complete (s g : string) :
  has_group s g -> is_Some (FindStringSubmatch s).
Proof.
  intros (a & b & -> & Hne & Hg).
  induction a as [|c a IH]; rewrite ?append_nil, ?append_cons.
  - cbn [FindStringSubmatch].
    destruct (datePat_here_complete g b Hne Hg) as [m ->]. eauto.
  - cbn [FindStringSubmatch]. destruct (datePat_here _); [eauto|exact IH].
Qed.

(** datePat finds a match exactly in the strings that hold a non-empty text
    between an opening parenthesis and the next closing one, and what it
    returns is the whole match and one such text. *)
Lemma FindStringSubmatch_None_iff (s : string) :
  FindStringSubmatch s = None <-> forall g, ~ has_group s g.
Proof.
  split.
  - intros H g Hg. destruct (FindStringSubmatch_complete s g Hg) as [m Hm]. congruence.
  - intros H. destruct (FindStringSubmatch s) as [m|] eqn:Hm; [|reflexivity].
    destruct (FindStringSubmatch_sound s m Hm) as (whole & g & _ & Hg).
    destruct (H g Hg).
Qed.

Lemma malformed_iff (ej : entryJson) : malformed ej = true <-> unparsable ej.
Proof.
  unfold malformed, msecs_of, unparsable.
  destruct (FindStringSubmatch (WT ej)) as [m|] eqn:Hm.
  - destruct (FindStringSubmatch_sound _ m Hm) as (whole & g & -> & Hg).
    pose proof (ParseInt_no_panic g) as Hnp.
    destruct (ParseInt g) as [v|e|] eqn:Hp; [| |contradiction].
    + split; [discriminate|]. intros [H|(w & g' & e & [= <- <-] & He)].
      * destruct (H g Hg).
      * congruence.
    + split; [|reflexivity]. intros _. right. exists whole, g, e. auto.
  - split; [|reflexivity]. intros _. left. apply FindStringSubmatch_None_iff. exact Hm.
Qed.
End DatePat.

Section TailClaims.
Import dex.

Lemma trend_table_index (k : Z) : index numToDir k = trend_table k.
Proof.
  rewrite index_numToDir.
  destruct (0 <=? k) eqn:H0; destruct (k <=? 9) eqn:H9; cbn [andb].
  - apply Z.leb_le in H0. apply Z.leb_le in H9.
    assert (k = 0 \/ k = 1 \/ k = 2 \/ k = 3 \/ k = 4 \/ k = 5 \/ k = 6 \/ k = 7
            \/ k = 8 \/ k = 9) as Hk by lia.
    repeat destruct Hk as [->|Hk]; try reflexivity. subst k. reflexivity.
  - apply Z.leb_gt in H9. destruct k as [|k|k]; try reflexivity.
    do 4 (try destruct k as [k|k|]); try reflexivity; lia.
  - apply Z.leb_gt in H0. destruct k; try reflexivity; lia.
  - apply Z.leb_gt in H0. destruct k; try reflexivity; lia.
Qed.

Lemma entries_of_zip (ejs : list entryJson) (mss : list Z) :
  Forall2 (fun ej ms => msecs_of ej = Ok ms) ejs mss ->
  entries_of ejs = Ok (zip_with entry_of ejs mss).
Proof.
  induction 1 as [|ej ms ejs mss H HF IH]; simpl; [reflexivity|].
  rewrite H, IH. reflexivity.
Qed.

Lemma entries_of_inv (ejs : list entryJson) :
  forall ens, entries_of ejs = Ok ens ->
  exists mss, Forall2 (fun ej ms => msecs_of ej = Ok ms) ejs mss
              /\ ens = zip_with entry_of ejs mss.
Proof.
  induction ejs as [|ej ejs IH]; simpl; intros ens H.
  - injection H as <-. exists []. split; [constructor|reflexivity].
  - destruct (msecs_of ej) as [ms|e|] eqn:Hm; try discriminate.
    destruct (entries_of ejs) as [ens'|e|]; try discriminate.
    injection H as <-. destruct (IH ens' eq_refl) as (mss & HF & ->).
    exists (ms :: mss). split; [constructor; assumption|reflexivity].
Qed.

Lemma Tail_of_loop howlong s script body s' fx :
  Tail_loop howlong s script = (Broke body, s', fx) ->
  Tail howlong s script = (Tail_decode body, s', fx).
Proof. intros H. unfold Tail. rewrite H. reflexivity. Qed.

Lemma StronglySorted_rev {A : Type} (R : relation A) (l : list A) :
  StronglySorted R l -> StronglySorted (flip R) (rev l).
Proof.
  induction 1 as [|x l HS IH HF]; simpl; [constructor|].
  apply StronglySorted_app_2; [|assumption|repeat constructor].
  intros x1 x2 H1 H2. apply list_elem_of_singleton in H2 as ->.
  rewrite Forall_forall in HF. apply HF.
  apply list_elem_of_In. apply in_rev. apply list_elem_of_In. assumption.
Qed.

Lemma times_zip (ejs : list entryJson) (mss : list Z) :
  length ejs = length mss ->
  times (zip_with entry_of ejs mss) = List.map (fun ms => Unix (Z.quot ms 1000) 0) mss.
Proof.
  revert mss. induction ejs as [|ej ejs IH]; intros [|ms mss] Hlen;
    try discriminate; [reflexivity|].
  simpl. f_equal. apply IH. simpl in Hlen. congruence.
Qed.

(** C3 (amended). For every batch Tail returns entries for, the trend of
    each entry is the record's trend code looked up in the fixed table for
    the codes 0 to 9, and a code outside the table gives DirNone, the zero
    value of Dir: there is no fallback to NotComputable or RateOutOfRange
    and no error. *)
Theorem Tail_trend_by_table howlong s script raw ejs s' fx ents :
  Tail_loop howlong s script = (Broke (BodyBytes raw (Some ejs)), s', fx) ->
  Tail howlong s script = (Return ents None, s', fx) ->
  List.map Dir_ ents = rev (List.map (fun ej => trend_table (Trend ej)) ejs)
  /\ (forall code, (code < 0 \/ 9 < code) -> index numToDir code = DirNone).
Proof.
  intros Hloop Htail. split.
  - rewrite (Tail_of_loop _ _ _ _ _ _ Hloop), Tail_decode_spec in Htail.
    destruct (entries_of ejs) as [ens|e|] eqn:Hens; try discriminate.
    injection Htail as <-.
    destruct (entries_of_inv _ _ Hens) as (mss & HF & ->).
    rewrite map_rev. f_equal. clear Hens Hloop.
    induction HF as [|ej ms ejs mss H HF IH]; simpl; [reflexivity|].
    rewrite IH, trend_table_index. reflexivity.
  - intros code Hcode. rewrite index_numToDir.
    destruct (0 <=? code) eqn:H0; destruct (code <=? 9) eqn:H9; try reflexivity.
    apply Z.leb_le in H0. apply Z.leb_le in H9. lia.
Qed.

Lemma Tail_trend_by_table_witness :
  List.map Dir_ [mkEntry (Unix 1445011200 0) 120 Flat ""]
  = rev (List.map (fun ej => trend_table (Trend ej))
                  [a_record "/Date(1445011200000)/" 4 120])
  /\ (forall code, (code < 0 \/ 9 < code) -> index numToDir code = DirNone).
Proof.
  apply (Tail_trend_by_table (5 * Minute) a_session
           [serves [a_record "/Date(1445011200000)/" 4 120]]
           "[...]" [a_record "/Date(1445011200000)/" 4 120] a_session
           [Query "token-1" (5 * Minute)]);
    vm_compute; reflexivity.
Defined.

(** C3, the claim as stated fails: a record with the trend code 42, which
    is in no table, comes back from Tail as an entry with the trend
    DirNone, not NotComputable and not RateOutOfRange, and with no
    error. *)
Lemma Tail_unknown_trend_counterexample :
  Tail (5 * Minute) a_session [serves [a_record "/Date(1445011200000)/" 42 120]]
  = (Return [mkEntry (Unix 1445011200 0) 120 DirNone ""] None, a_session,
     [Query "token-1" (5 * Minute)])
  /\ DirNone <> NotComputable /\ DirNone <> RateOutOfRange.
Proof. split; [vm_compute; reflexivity|split; discriminate]. Qed.

Lemma Tail_loop_expired (n : nat) howlong s :
  exists s' fx,
    Tail_loop howlong s (replicate n expired) = (Retrying, s', fx)
    /\ queries fx = n.
Proof.
  revert s. induction n as [|n IH]; intros s.
  - exists s, []. split; reflexivity.
  - cbn [replicate Tail_loop expired answer relogin refresh].
    change (401 <? 400) with false. cbv iota.
    change (0 + 1 =? 5) with false. cbv iota.
    destruct (IH (mkSession "token-2" (path s) (user s) (pass s))) as (s' & fx & -> & Hq).
    eexists _, _. split; [reflexivity|].
    unfold queries in *. simpl. rewrite Hq. reflexivity.
Qed.

(** C1, what the code does: however many fetches in a row are answered
    with status 401 while every login succeeds, Tail has sent as many
    queries, has returned nothing and goes on; with five such answers and
    a sixth that succeeds, it returns the entries of the sixth. The
    'giving up' error does not come. *)
Theorem Tail_retries_without_bound :
  (forall (n : nat) howlong s,
      exists s' fx,
        Tail howlong s (replicate n expired) = (NoReturn, s', fx)
        /\ queries fx = n)
  /\ exists s' fx,
      Tail (5 * Minute) a_session
           (replicate 5 expired ++ [serves [a_record "/Date(1445011200000)/" 4 120]])
      = (Return [mkEntry (Unix 1445011200 0) 120 Flat ""] None, s', fx)
      /\ queries fx = 6%nat.
Proof.
  split.
  - intros n howlong s. destruct (Tail_loop_expired n howlong s) as (s' & fx & H & Hq).
    exists s', fx. unfold Tail. rewrite H. split; [reflexivity|assumption].
  - eexists _, _. split; vm_compute; reflexivity.
Qed.

(** C5. If any record of a fetched batch has a timestamp that does not
    parse (WT shows no text in parentheses for datePat to match, or the text
    matched is not an integer), Tail returns an error together with no
    entries at all, whatever the other records are. *)
Theorem Tail_malformed_timestamp_fails howlong s script raw ejs s' fx :
  Tail_loop howlong s script = (Broke (BodyBytes raw (Some ejs)), s', fx) ->
  Exists unparsable ejs ->
  exists e, Tail howlong s script = (Return [] (Some e), s', fx).
Proof.
  intros Hloop Hbad.
  rewrite (Tail_of_loop _ _ _ _ _ _ Hloop), Tail_decode_spec.
  assert (Exists (fun ej => malformed ej = true) ejs) as Hbad'.
  { eapply Exists_impl; [exact Hbad|]. intros ej. apply malformed_iff. }
  destruct (entries_of_malformed _ Hbad') as [e ->]. exists e. reflexivity.
Qed.

Lemma Tail_malformed_timestamp_fails_witness :
  exists e,
    Tail (5 * Minute) a_session
         [serves [a_record "/Date(1445011500000)/" 4 120;
                  a_record "/Date(yesterday)/" 4 118;
                  a_record "/Date(1445010900000)/" 4 117]]
    = (Return [] (Some e), a_session, [Query "token-1" (5 * Minute)]).
Proof.
  apply (Tail_malformed_timestamp_fails _ _ _ "[...]"
           [a_record "/Date(1445011500000)/" 4 120;
            a_record "/Date(yesterday)/" 4 118;
            a_record "/Date(1445010900000)/" 4 117]).
  - vm_compute; reflexivity.
  - apply Exists_cons_tl, Exists_cons_hd. right.
    exists "/Date(yesterday)/", "yesterday", (ErrSyntax "yesterday").
    split; vm_compute; reflexivity.
Defined.

Example Tail_no_parenthesis :
  Tail (5 * Minute) a_session [serves [a_record "2015-10-16T16:00:00" 4 120]]
  = (Return [] (Some (ErrNoMatch "2015-10-16T16:00:00")), a_session,
     [Query "token-1" (5 * Minute)]).
Proof. vm_compute; reflexivity. Qed.

Lemma Tail_loop_failure_from_world howlong script :
  forall s e s' fx,
    Tail_loop howlong s script = (Failed e, s', fx) ->
    Exists (fun x => answer x = DoFail e \/ relogin x = LoginFail e) script.
Proof.
  induction script as [|x script IH]; intros s e s' fx H; [discriminate|].
  cbn [Tail_loop] in H.
  destruct (answer x) as [e0|st body] eqn:Ha.
  - injection H as <- _ _. apply Exists_cons_hd. left. assumption.
  - destruct (st <? 400); [discriminate|].
    destruct (relogin x) as [e0|tok saved] eqn:Hr; cbn [refresh] in H.
    + injection H as <- _ _. apply Exists_cons_hd. right. assumption.
    + change (0 + 1 =? 5) with false in H. cbv iota in H.
      destruct (Tail_loop howlong _ script) as [[r s''] fx'] eqn:Hrec.
      injection H as -> _ _. apply Exists_cons_tl. eapply IH. eassumption.
Qed.

Lemma Unix_lt (a b : Z) : a < b -> Unix a 0 < Unix b 0.
Proof. unfold Unix, Second. lia. Qed.

Lemma Unix_le (a b : Z) : a <= b -> Unix a 0 <= Unix b 0.
Proof. unfold Unix, Second. lia. Qed.

Lemma quot_1000_le (a b : Z) : a <= b -> Z.quot a 1000 <= Z.quot b 1000.
Proof. intros H. apply Z.quot_le_mono; lia. Qed.

(** C6 (amended). For a batch in which every timestamp parses, Tail
    returns the records in reverse order, each entry with the record's
    value, its timestamp cut to whole seconds ([time.Unix(msecs/1000, 0)])
    and its trend. If the batch is strictly descending in those whole
    seconds, the entries are strictly ascending in time; if it is strictly
    descending in milliseconds only, they are in ascending order that need
    not be strict. *)
Theorem Tail_reverses_batch howlong s script raw ejs mss s' fx :
  Tail_loop howlong s script = (Broke (BodyBytes raw (Some ejs)), s', fx) ->
  Forall2 (fun ej ms => msecs_of ej = Ok ms) ejs mss ->
  Tail howlong s script = (Return (rev (zip_with entry_of ejs mss)) None, s', fx)
  /\ (descending (List.map (fun ms => Z.quot ms 1000) mss) ->
      ascending (times (rev (zip_with entry_of ejs mss))))
  /\ (descending mss ->
      nondecreasing (times (rev (zip_with entry_of ejs mss)))).
Proof.
  intros Hloop HF.
  assert (times (rev (zip_with entry_of ejs mss))
          = rev (List.map (fun ms => Unix (Z.quot ms 1000) 0) mss)) as Ht.
  { unfold times. rewrite map_rev. f_equal. apply times_zip.
    eapply Forall2_length. eassumption. }
  rewrite Ht. split; [|split].
  - rewrite (Tail_of_loop _ _ _ _ _ _ Hloop), Tail_decode_spec.
    rewrite (entries_of_zip _ _ HF). reflexivity.
  - intros Hd. unfold ascending.
    rewrite <- (List.map_map (fun ms => Z.quot ms 1000) (fun q => Unix q 0)).
    change Z.lt with (flip (flip Z.lt)). apply StronglySorted_rev.
    apply (StronglySorted_fmap (fun q => Unix q 0) (flip Z.lt)); [|exact Hd].
    unfold flip. intros x y Hxy. apply Unix_lt. exact Hxy.
  - intros Hd. unfold nondecreasing.
    change Z.le with (flip (flip Z.le)). apply StronglySorted_rev.
    apply (StronglySorted_fmap (fun ms => Unix (Z.quot ms 1000) 0) (flip Z.lt));
      [|exact Hd].
    unfold flip. intros x y Hxy. apply Unix_le, quot_1000_le. lia.
Qed.

Lemma Tail_reverses_batch_witness :
  Tail (15 * Minute) a_session
       [expired;
        serves [a_record "/Date(1445011500000)/" 4 120;
                a_record "/Date(1445011200000)/" 5 118;
                a_record "/Date(1445010900000)/" 6 117]]
  = (Return [mkEntry (Unix 1445010900 0) 117 SingleDown "";
             mkEntry (Unix 1445011200 0) 118 FortyFiveDown "";
             mkEntry (Unix 1445011500 0) 120 Flat ""] None,
     mkSession "token-2" "/home/u/.dex.u" "u" "secret",
     [Query "token-1" (15 * Minute); Login "u"; Query "token-2" (15 * Minute)])
  /\ ascending [Unix 1445010900 0; Unix 1445011200 0; Unix 1445011500 0].
Proof.
  assert (Forall2 (fun ej ms => msecs_of ej = Ok ms)
            [a_record "/Date(1445011500000)/" 4 120;
             a_record "/Date(1445011200000)/" 5 118;
             a_record "/Date(1445010900000)/" 6 117]
            [1445011500000; 1445011200000; 1445010900000]) as HF
    by (repeat (constructor; [vm_compute; reflexivity|]); constructor).
  destruct (Tail_reverses_batch (15 * Minute) a_session
              [expired;
               serves [a_record "/Date(1445011500000)/" 4 120;
                       a_record "/Date(1445011200000)/" 5 118;
                       a_record "/Date(1445010900000)/" 6 117]]
              "[...]" _ _
              (mkSession "token-2" "/home/u/.dex.u" "u" "secret")
              [Query "token-1" (15 * Minute); Login "u"; Query "token-2" (15 * Minute)]
              eq_refl HF)
    as (Hret & Hasc & _).
  split; [exact Hret|].
  apply Hasc. unfold descending, flip.
  repeat (constructor; [|repeat constructor; reflexivity]). constructor.
Defined.

(** C6, the claim as stated fails: two records 999 ms apart, newest first,
    both fall in the second 1; Tail returns two entries with the same
    time, which is not a strictly ascending order. *)
Lemma Tail_same_second_counterexample :
  msecs_of (a_record "/Date(1999)/" 4 120) = Ok 1999
  /\ msecs_of (a_record "/Date(1000)/" 4 118) = Ok 1000
  /\ descending [1999; 1000]
  /\ Tail (5 * Minute) a_session
          [serves [a_record "/Date(1999)/" 4 120; a_record "/Date(1000)/" 4 118]]
     = (Return [mkEntry (Unix 1 0) 118 Flat ""; mkEntry (Unix 1 0) 120 Flat ""] None,
        a_session, [Query "token-1" (5 * Minute)])
  /\ ~ ascending (times [mkEntry (Unix 1 0) 118 Flat ""; mkEntry (Unix 1 0) 120 Flat ""]).
Proof.
  split; [vm_compute; reflexivity|].
  split; [vm_compute; reflexivity|].
  split.
  { unfold descending, flip. repeat constructor. }
  split; [vm_compute; reflexivity|].
  intros H. unfold ascending, times in H. simpl in H.
  apply StronglySorted_inv in H as [_ H].
  apply Forall_inv in H. unfold Unix in H. lia.
Qed.
End TailClaims.

Section StreamClaims.
Import dex.

Lemma sent_app (a b : list action) : sent (a ++ b) = sent a ++ sent b.
Proof. apply omap_app. Qed.

Lemma sent_Send (ens : list Entry) : sent (List.map Send ens) = ens.
Proof. induction ens as [|e ens IH]; [reflexivity|]. cbn. f_equal. exact IH. Qed.

Lemma scan_spec (b : Time) (ents : list Entry) :
  forall newest,
    scan b ents newest
    = (List.map Send (fresh b ents),
       match last (fresh b ents) with
       | Some e => Some e
       | None => newest
       end).
Proof.
  induction ents as [|e ents IH]; intros newest; [reflexivity|].
  cbn [scan fresh List.filter]. fold (fresh b ents).
  destruct (After (Time_ e) b).
  - rewrite IH. cbn [List.map]. rewrite last_cons.
    destruct (last (fresh b ents)); reflexivity.
  - apply IH.
Qed.

(** What one turn sends and the state it leaves. *)
Lemma turn_spec (st : state) (p : poll) :
  tail_err p = None ->
  exists acts,
    turn st p
    = (acts,
       Some match last (fresh (begin st) (tail_entries p)) with
            | Some e => mkState (Time_ e) (Add (Time_ e) (5 * Minute)) 0 0
            | None =>
                mkState (begin st) (eta st)
                  (if penalty st <? 10 * Second
                   then wrap64 (penalty st + Second) else penalty st)
                  (wrap64 (total st + penalty st))
            end)
    /\ sent acts = fresh (begin st) (tail_entries p).
Proof.
  intros Herr. unfold turn. rewrite Herr, scan_spec.
  destruct (last (fresh (begin st) (tail_entries p))) as [e|];
    (eexists; split; [reflexivity|]);
    rewrite !sent_app, sent_Send;
    destruct (After (eta st) (now p)); cbn; rewrite ?app_nil_r; reflexivity.
Qed.

Lemma turn_failed (st : state) (p : poll) (e : error) :
  tail_err p = Some e ->
  exists acts, turn st p = (acts, None) /\ sent acts = [].
Proof.
  intros Herr. unfold turn. rewrite Herr. eexists; split; [reflexivity|].
  rewrite !sent_app. destruct (After (eta st) (now p)); reflexivity.
Qed.

Lemma fresh_newer (b : Time) (ents : list Entry) :
  Forall (fun e => b < Time_ e) (fresh b ents).
Proof.
  apply Forall_forall. intros e He. apply list_elem_of_In, filter_In in He as [_ He].
  unfold After in He. apply Z.ltb_lt. exact He.
Qed.

Lemma fresh_ascending (b : Time) (ents : list Entry) :
  ascending (times ents) -> ascending (times (fresh b ents)).
Proof.
  unfold ascending, times. induction ents as [|e ents IH]; intros H; [constructor|].
  cbn [List.map] in H. apply StronglySorted_inv in H as [Hs Hf].
  cbn [fresh List.filter]. fold (fresh b ents).
  destruct (After (Time_ e) b); [|apply IH; exact Hs].
  cbn [List.map]. constructor; [apply IH; exact Hs|].
  rewrite Forall_forall in *. intros t Ht. apply Hf.
  apply list_elem_of_In, in_map_iff in Ht as (x & <- & Hx).
  apply filter_In in Hx as [Hx _].
  apply list_elem_of_In, in_map. exact Hx.
Qed.

Lemma ascending_le_last (ts : list Z) (d : Z) :
  ascending ts -> Forall (fun t => t <= default d (last ts)) ts.
Proof.
  unfold ascending. induction 1 as [|t ts Hs IH Hf]; [constructor|].
  rewrite last_cons. destruct (last ts) as [y|] eqn:Hl; simpl default in *.
  - constructor; [|exact IH].
    apply last_Some_elem_of in Hl. rewrite Forall_forall in Hf.
    specialize (Hf y Hl). lia.
  - apply last_None in Hl as ->. constructor; [lia|constructor].
Qed.

Lemma last_times (ens : list Entry) : last (times ens) = Time_ <$> last ens.
Proof. unfold times. induction ens as [|e [|e' ens] IH]; simpl in *; auto. Qed.

Lemma ascending_NoDup (ts : list Z) : ascending ts -> NoDup ts.
Proof.
  unfold ascending. induction 1 as [|t ts Hs IH Hf]; constructor; [|exact IH].
  intros Hin. rewrite Forall_forall in Hf. specialize (Hf t Hin). lia.
Qed.

Lemma loop_app (pre post : list poll) :
  forall st,
    loop st (pre ++ post)
    = match loop st pre with
      | (acts, Some st') => let '(acts', fin) := loop st' post in (acts ++ acts', fin)
      | (acts, None) => (acts, None)
      end.
Proof.
  induction pre as [|p pre IH]; intros st.
  - cbn [app loop]. destruct (loop st post). reflexivity.
  - cbn [app loop]. destruct (turn st p) as [acts [st'|]]; [|reflexivity].
    rewrite IH. destruct (loop st' pre) as [acts1 [st1|]]; [|reflexivity].
    destruct (loop st1 post) as [acts2 fin]. rewrite app_assoc. reflexivity.
Qed.

(** The invariant of the loop: what is sent from a state on is ascending
    and newer than the cursor of that state, and the cursor ends at the time
    of the last entry sent. *)
Lemma loop_sent (polls : list poll) :
  forall st acts fin,
    Forall (fun p => ascending (times (tail_entries p))) polls ->
    loop st polls = (acts, fin) ->
    ascending (times (sent acts))
    /\ Forall (fun e => begin st < Time_ e) (sent acts)
    /\ (forall st', fin = Some st' -> begin st' = newest_time (begin st) (sent acts)).
Proof.
  induction polls as [|p polls IH]; intros st acts fin Hasc Hloop.
  - injection Hloop as <- <-. repeat split; try constructor.
    intros st' [= <-]. reflexivity.
  - apply Forall_cons in Hasc as [Hp Hasc]. cbn [loop] in Hloop.
    destruct (tail_err p) as [e|] eqn:Herr.
    + destruct (turn_failed st p e Herr) as (a & Hturn & Hsent).
      rewrite Hturn in Hloop. injection Hloop as <- <-.
      rewrite sent_app, Hsent. repeat split; try constructor. discriminate.
    + destruct (turn_spec st p Herr) as (a & Hturn & Hsent).
      rewrite Hturn in Hloop.
      set (st1 := match last (fresh (begin st) (tail_entries p)) with
                  | Some e => _
                  | None => _
                  end) in *.
      destruct (loop st1 polls) as [a' fin'] eqn:Hrest.
      injection Hloop as <- <-.
      destruct (IH _ _ _ Hasc Hrest) as (IHasc & IHnew & IHfin).
      pose proof (fresh_ascending (begin st) _ Hp) as Hfa.
      pose proof (fresh_newer (begin st) (tail_entries p)) as Hfn.
      pose proof (ascending_le_last _ (begin st) Hfa) as Hle.
      assert (begin st1 = newest_time (begin st) (fresh (begin st) (tail_entries p)))
        as Hb1.
      { unfold newest_time, st1. rewrite last_times.
        destruct (last (fresh (begin st) (tail_entries p))); reflexivity. }
      assert (begin st <= begin st1) as Hmono.
      { rewrite Hb1. unfold newest_time.
        destruct (last (times (fresh (begin st) (tail_entries p)))) as [t|] eqn:Hl;
          simpl default; [|lia].
        apply last_Some_elem_of, list_elem_of_In, in_map_iff in Hl as (x & <- & Hx).
        rewrite Forall_forall in Hfn. apply list_elem_of_In, Hfn in Hx. lia. }
      rewrite sent_app, Hsent. unfold times. rewrite map_app. fold (times (sent a')).
      fold (times (fresh (begin st) (tail_entries p))).
      split; [|split].
      * apply StronglySorted_app_2; [|exact Hfa|exact IHasc].
        intros t1 t2 H1 H2.
        rewrite Forall_forall in Hle. apply Hle in H1.
        apply list_elem_of_In, in_map_iff in H2 as (x & <- & Hx).
        rewrite Forall_forall in IHnew. apply list_elem_of_In, IHnew in Hx.
        rewrite Hb1 in Hx. eapply Z.le_lt_trans; [exact H1|exact Hx].
      * apply Forall_app. split; [exact Hfn|].
        eapply Forall_impl; [exact IHnew|]. cbn. intros x Hx.
        eapply Z.le_lt_trans; [exact Hmono|exact Hx].
      * intros st' Hst'. rewrite (IHfin st' Hst'). unfold newest_time, times.
        rewrite map_app, last_app. fold (times (sent a')).
        destruct (last (times (sent a'))); [reflexivity|]. simpl default.
        exact Hb1.
Qed.

Lemma turn_cursor (st : state) (p : poll) :
  tail_err p = None ->
  exists acts st',
    turn st p = (acts, Some st')
    /\ sent acts = fresh (begin st) (tail_entries p)
    /\ begin st' = newest_time (begin st) (sent acts).
Proof.
  intros Herr. destruct (turn_spec st p Herr) as (acts & Hturn & Hsent).
  eexists _, _. split; [exact Hturn|]. split; [exact Hsent|].
  rewrite Hsent. unfold newest_time. rewrite last_times.
  destruct (last (fresh (begin st) (tail_entries p))); reflexivity.
Qed.

(** C2. Whatever batches the polls fetch, as long as each batch is strictly
    ascending in time: the entries Stream sends are strictly ascending in
    time over the whole run, so no time is sent twice; after every prefix of
    the polls the cursor is the time of the last entry sent so far (the
    caller's begin while nothing was sent), and everything sent afterwards is
    strictly newer than that cursor; in any state, a poll that fetches
    without error sends exactly the entries of its batch that are newer than
    the cursor, and leaves the cursor at the last of them. *)
Theorem Stream_sends_ascending begin0 start polls acts fin :
  Forall (fun p => ascending (times (tail_entries p))) polls ->
  Stream begin0 start polls = (acts, fin) ->
  ascending (times (sent acts))
  /\ NoDup (times (sent acts))
  /\ (forall pre post acts1 st,
         polls = pre ++ post ->
         Stream begin0 start pre = (acts1, Some st) ->
         begin st = newest_time begin0 (sent acts1)
         /\ exists acts2,
             acts = acts1 ++ acts2
             /\ Forall (fun e => begin st < Time_ e) (sent acts2))
  /\ (forall st p,
         tail_err p = None ->
         exists acts_p st',
           turn st p = (acts_p, Some st')
           /\ sent acts_p = fresh (begin st) (tail_entries p)
           /\ begin st' = newest_time (begin st) (sent acts_p)).
Proof.
  intros Hasc Hrun. unfold Stream in *.
  destruct (loop_sent _ _ _ _ Hasc Hrun) as (Hs & _ & _).
  split; [exact Hs|]. split; [apply ascending_NoDup; exact Hs|].
  split.
  - intros pre post acts1 st -> Hpre.
    apply Forall_app in Hasc as [Hasc1 Hasc2].
    destruct (loop_sent _ _ _ _ Hasc1 Hpre) as (_ & _ & Hcur).
    split; [apply Hcur; reflexivity|].
    rewrite loop_app, Hpre in Hrun.
    destruct (loop st post) as [acts2 fin2] eqn:Hpost.
    injection Hrun as <- <-. exists acts2. split; [reflexivity|].
    destruct (loop_sent _ _ _ _ Hasc2 Hpost) as (_ & Hnew & _). exact Hnew.
  - intros st p Herr. apply turn_cursor. exact Herr.
Qed.

Lemma Stream_sends_ascending_witness :
  times (sent (fst (Stream (Unix 1000 0) (Unix 1010 0) three_polls)))
  = [Unix 1300 0; Unix 1600 0; Unix 1900 0]
  /\ ascending (times (sent (fst (Stream (Unix 1000 0) (Unix 1010 0) three_polls))))
  /\ NoDup (times (sent (fst (Stream (Unix 1000 0) (Unix 1010 0) three_polls)))).
Proof.
  split; [vm_compute; reflexivity|].
  assert (Forall (fun p => ascending (times (tail_entries p))) three_polls) as Hasc.
  { unfold ascending, three_polls.
    repeat (constructor;
            [repeat (constructor; [|repeat constructor; reflexivity]); constructor|]).
    constructor. }
  destruct (Stream_sends_ascending (Unix 1000 0) (Unix 1010 0) three_polls
              (fst (Stream (Unix 1000 0) (Unix 1010 0) three_polls))
              (snd (Stream (Unix 1000 0) (Unix 1010 0) three_polls))
              Hasc eq_refl) as (H1 & H2 & _).
  split; assumption.
Defined.

Lemma wrap64_small (x : Z) : minInt64 <= x <= maxInt64 -> wrap64 x = x.
Proof.
  unfold wrap64, minInt64, maxInt64. intros H.
  rewrite Z.mod_small; lia.
Qed.

Lemma turn_quiet (st : state) (p : poll) :
  penalty_in_range st ->
  quiet (begin st) p ->
  exists acts st',
    turn st p = (acts, Some st') /\ sent acts = []
    /\ begin st' = begin st /\ eta st' = eta st
    /\ penalty st' = Z.min (penalty st + Second) (10 * Second)
    /\ penalty_in_range st'.
Proof.
  intros (k & Hk & Hpen) [Herr Hfresh].
  destruct (turn_spec st p Herr) as (acts & Hturn & Hsent).
  rewrite Hfresh in Hturn, Hsent. cbn [last] in Hturn.
  eexists _, _. split; [exact Hturn|]. split; [exact Hsent|].
  cbn [begin eta penalty]. split; [reflexivity|]. split; [reflexivity|].
  rewrite Hpen. unfold Second in *.
  destruct (k * 1000000000 <? 10 * 1000000000) eqn:Hlt.
  - apply Z.ltb_lt in Hlt.
    rewrite wrap64_small by (unfold minInt64, maxInt64; lia).
    split; [lia|]. exists (k + 1). cbn [penalty]. unfold Second. split; lia.
  - apply Z.ltb_ge in Hlt. split; [lia|]. exists k. cbn [penalty]. unfold Second.
    split; lia.
Qed.

Lemma loop_quiet (quiets : list poll) :
  forall st,
    penalty_in_range st ->
    Forall (quiet (begin st)) quiets ->
    exists acts st',
      loop st quiets = (acts, Some st') /\ sent acts = []
      /\ begin st' = begin st /\ eta st' = eta st
      /\ penalty st' = Z.min (penalty st + Z.of_nat (length quiets) * Second) (10 * Second)
      /\ penalty_in_range st'.
Proof.
  induction quiets as [|p quiets IH]; intros st Hinv Hq.
  - exists [], st. repeat split; try assumption.
    destruct Hinv as (k & Hk & ->). cbn [length Z.of_nat]. unfold Second. lia.
  - apply Forall_cons in Hq as [Hp Hq].
    destruct (turn_quiet st p Hinv Hp) as (a & st1 & Hturn & Hsent & Hb & He & Hpen & Hinv1).
    rewrite <- Hb in Hq.
    destruct (IH st1 Hinv1 Hq) as (a' & st' & Hloop & Hsent' & Hb' & He' & Hpen' & Hinv').
    exists (a ++ a'), st'. cbn [loop]. rewrite Hturn, Hloop.
    split; [reflexivity|]. rewrite sent_app, Hsent, Hsent'.
    split; [reflexivity|]. split; [congruence|]. split; [congruence|].
    split; [|exact Hinv'].
    rewrite Hpen', Hpen. destruct Hinv as (k & Hk & ->).
    cbn [length]. unfold Second. lia.
Qed.

Lemma loop_penalty_in_range (polls : list poll) :
  forall st acts st',
    penalty_in_range st ->
    loop st polls = (acts, Some st') ->
    penalty_in_range st'.
Proof.
  induction polls as [|p polls IH]; intros st acts st' Hinv Hloop.
  - injection Hloop as _ <-. exact Hinv.
  - cbn [loop] in Hloop. destruct (tail_err p) as [e|] eqn:Herr.
    + destruct (turn_failed st p e Herr) as (a & Hturn & _).
      rewrite Hturn in Hloop. discriminate.
    + destruct (turn_spec st p Herr) as (a & Hturn & _).
      rewrite Hturn in Hloop.
      destruct (loop _ polls) as [a' fin] eqn:Hrest.
      injection Hloop as _ ->. eapply IH; [|exact Hrest].
      destruct (last (fresh (begin st) (tail_entries p))) as [e|] eqn:Hl.
      * exists 0. cbn. split; [lia|reflexivity].
      * apply last_None in Hl.
        destruct (turn_quiet st p Hinv (conj Herr Hl))
          as (a1 & st1 & Hturn1 & _ & _ & _ & _ & Hinv1).
        rewrite Hturn in Hturn1. injection Hturn1 as _ <-. exact Hinv1.
Qed.

(** C4. From any state the loop of Stream reaches, a run of polls that
    each fetch without error and bring no new entry leaves the cursor and
    eta where they were and sends nothing, and raises the penalty by one
    second per poll until it stands at 10 seconds; a poll that sends at
    least one entry leaves the penalty at zero. *)
Theorem Stream_backoff begin0 start pre acts st quiets :
  Stream begin0 start pre = (acts, Some st) ->
  Forall (quiet (begin st)) quiets ->
  (exists acts' st',
      loop st quiets = (acts', Some st') /\ sent acts' = []
      /\ begin st' = begin st /\ eta st' = eta st
      /\ penalty st' = Z.min (penalty st + Z.of_nat (length quiets) * Second) (10 * Second))
  /\ 0 <= penalty st <= 10 * Second
  /\ (forall p acts' st',
         turn st p = (acts', Some st') -> sent acts' <> [] -> penalty st' = 0).
Proof.
  intros Hrun Hq.
  assert (penalty_in_range st) as Hinv.
  { eapply loop_penalty_in_range; [|exact Hrun]. exists 0. split; [lia|reflexivity]. }
  split; [|split].
  - destruct (loop_quiet quiets st Hinv Hq) as (a & st' & H1 & H2 & H3 & H4 & H5 & _).
    exists a, st'. repeat split; assumption.
  - destruct Hinv as (k & Hk & ->). unfold Second. lia.
  - intros p acts' st' Hturn Hsent.
    destruct (tail_err p) as [e|] eqn:Herr.
    + destruct (turn_failed st p e Herr) as (a & Hturn' & _). congruence.
    + destruct (turn_spec st p Herr) as (a & Hturn' & Hsent').
      rewrite Hturn' in Hturn. injection Hturn as <- <-.
      rewrite Hsent' in Hsent.
      destruct (last (fresh (begin st) (tail_entries p))) as [e|] eqn:Hl; [reflexivity|].
      apply last_None in Hl. contradiction.
Qed.

Lemma Stream_backoff_witness :
  exists acts' st',
    loop (mkState (Unix 1300 0) (Unix 1600 0) 0 0)
         (replicate 12 (a_poll 1600 [an_entry 1000 112; an_entry 1300 115]))
    = (acts', Some st')
    /\ sent acts' = []
    /\ begin st' = Unix 1300 0 /\ eta st' = Unix 1600 0
    /\ penalty st' = 10 * Second.
Proof.
  assert (Forall (quiet (Unix 1300 0))
            (replicate 12 (a_poll 1600 [an_entry 1000 112; an_entry 1300 115]))) as Hq.
  { apply Forall_replicate. split; reflexivity. }
  destruct (Stream_backoff (Unix 1000 0) (Unix 1010 0)
              [a_poll 1010 [an_entry 700 110; an_entry 1000 112; an_entry 1300 115]]
              (fst (Stream (Unix 1000 0) (Unix 1010 0)
                      [a_poll 1010 [an_entry 700 110; an_entry 1000 112; an_entry 1300 115]]))
              (mkState (Unix 1300 0) (Unix 1600 0) 0 0)
              (replicate 12 (a_poll 1600 [an_entry 1000 112; an_entry 1300 115]))
              eq_refl Hq)
    as ((acts' & st' & Hloop & Hsent & Hb & He & Hp) & _).
  exists acts', st'. repeat split; assumption.
Defined.
End StreamClaims.

(** * Properties of package trigger *)

Section TriggerLemmas.
Import trigger.

Lemma observes_cons (t : Trigger) (e : dex.Entry) (es : list dex.Entry) :
  observes t (e :: es) = observes (fst (Observe t e)) es.
Proof. reflexivity. Qed.

Lemma observes_app (t : Trigger) (es es' : list dex.Entry) :
  observes t (es ++ es') = observes (observes t es) es'.
Proof. unfold observes. apply fold_left_app. Qed.

Lemma Observe_any (a : list Trigger) (e : dex.Entry) :
  fst (Observe (anyTrigger a) e) = anyTrigger (List.map (fun t => fst (Observe t e)) a).
Proof. cbn [Observe fst]. rewrite List.map_map. reflexivity. Qed.

Lemma Observe_all (a : list Trigger) (e : dex.Entry) :
  fst (Observe (allTrigger a) e) = allTrigger (List.map (fun t => fst (Observe t e)) a).
Proof. cbn [Observe fst]. rewrite List.map_map. reflexivity. Qed.

Lemma observes_any (es : list dex.Entry) :
  forall a, observes (anyTrigger a) es = anyTrigger (List.map (fun t => observes t es) a).
Proof.
  induction es as [|e es IH]; intros a.
  - cbn. rewrite List.map_id. reflexivity.
  - rewrite observes_cons, Observe_any, IH, List.map_map. reflexivity.
Qed.

Lemma observes_all (es : list dex.Entry) :
  forall a, observes (allTrigger a) es = allTrigger (List.map (fun t => observes t es) a).
Proof.
  induction es as [|e es IH]; intros a.
  - cbn. rewrite List.map_id. reflexivity.
  - rewrite observes_cons, Observe_all, IH, List.map_map. reflexivity.
Qed.

Lemma forallb_map_Forall {A B : Type} (f : A -> B) (g : B -> bool) (l : list A) :
  Forall (fun x => g (f x) = true) l -> forallb g (List.map f l) = true.
Proof. induction 1 as [|x l H HF IH]; cbn; [reflexivity|]. rewrite H, IH. reflexivity. Qed.

(** One observation through the root reaches every leaf. *)
Lemma Observe_observed (e : dex.Entry) (t : Trigger) :
  observed (fst (Observe t e)) = true.
Proof.
  induction t as [p cur|p last cur|a IH|a IH] using Trigger_tree_ind.
  - reflexivity.
  - reflexivity.
  - rewrite Observe_any. cbn [observed]. apply forallb_map_Forall. exact IH.
  - rewrite Observe_all. cbn [observed]. apply forallb_map_Forall. exact IH.
Qed.

(** No trigger of the library fails to observe: the combined error is nil. *)
Lemma Observe_no_error (e : dex.Entry) (t : Trigger) : snd (Observe t e) = None.
Proof.
  assert (forall (a : list Trigger) (acc : errs),
             Forall (fun t => snd (Observe t e) = None) a ->
             fold_left record (List.map snd (List.map (fun t => Observe t e) a)) acc
             = acc) as Hfold.
  { intros a acc HF. revert acc.
    induction HF as [|t' a H HF IH]; intros acc; cbn [List.map fold_left]; [reflexivity|].
    rewrite H. cbn [record]. apply IH. }
  induction t as [p cur|p last cur|a IH|a IH] using Trigger_tree_ind; try reflexivity.
  - cbn [Observe snd]. rewrite (Hfold a [] IH). reflexivity.
  - cbn [Observe snd]. rewrite (Hfold a [] IH). reflexivity.
Qed.

Lemma observes_observed (es : list dex.Entry) :
  forall t e, observed (observes t (e :: es)) = true.
Proof.
  induction es as [|e' es IH]; intros t e.
  - apply Observe_observed.
  - rewrite observes_cons. apply IH.
Qed.

Lemma range_any_spec (a : list Trigger) :
  Forall (answers Active) a ->
  exists b, range_any Active a = Returns b
            /\ (b = true <-> Exists (fun t => Active t = Returns true) a).
Proof.
  induction 1 as [|t a [b Hb] HF IH]; cbn [range_any].
  - exists false. split; [reflexivity|]. split; [discriminate|]. intros H. inversion H.
  - rewrite Hb. cbn [bind]. destruct b.
    + exists true. split; [reflexivity|]. split; [|reflexivity].
      intros _. apply Exists_cons_hd. exact Hb.
    + destruct IH as (b' & -> & Hiff). exists b'. split; [reflexivity|].
      rewrite Hiff. split; [apply Exists_cons_tl|].
      intros H. apply Exists_cons in H as [H|H]; [congruence|exact H].
Qed.

Lemma range_all_spec (a : list Trigger) :
  Forall (answers Active) a ->
  forall active,
  exists b, range_all Active active a = Returns b
            /\ (b = true <-> active = true /\ Forall (fun t => Active t = Returns true) a).
Proof.
  induction 1 as [|t a [b Hb] HF IH]; intros active; cbn [range_all].
  - exists active. split; [reflexivity|]. split; [intros ->; split; [reflexivity|constructor]|].
    intros [H _]. exact H.
  - destruct active.
    + rewrite Hb. cbn [bind]. destruct (IH b) as (b' & -> & Hiff). exists b'.
      split; [reflexivity|]. rewrite Hiff. split.
      * intros [-> Hall]. split; [reflexivity|]. constructor; assumption.
      * intros [_ Hall]. apply Forall_cons in Hall as [Ht Hall].
        split; [congruence|exact Hall].
    + destruct (IH false) as (b' & -> & Hiff). exists b'.
      split; [reflexivity|]. rewrite Hiff. split; intros [? _]; discriminate.
Qed.

Lemma range_strs_spec (a : list Trigger) :
  Forall (answers Active) a ->
  Forall (answers String_) a ->
  range_strs Active String_ a = Returns (descriptions a).
Proof.
  induction 1 as [|t a [b Hb] HF IH]; intros HS; [reflexivity|].
  apply Forall_cons in HS as [[d Hd] HS]. cbn [range_strs descriptions].
  rewrite Hb, Hd. cbn [bind]. destruct b; rewrite (IH HS); reflexivity.
Qed.

Lemma Active_answers (t : Trigger) : observed t = true -> answers Active t.
Proof.
  induction t as [p cur|p last cur|a IH|a IH] using Trigger_tree_ind;
    cbn [observed]; intros Hobs.
  - destruct cur as [c|]; [|discriminate]. eexists. reflexivity.
  - destruct cur as [c|]; [|discriminate]. destruct last; eexists; reflexivity.
  - assert (Forall (answers Active) a) as HF.
    { clear -IH Hobs. induction IH as [|t a Ht HF IH']; [constructor|].
      cbn in Hobs. apply andb_true_iff in Hobs as [H1 H2]. constructor; auto. }
    destruct (range_any_spec a HF) as (b & Hb & _). exists b. exact Hb.
  - assert (Forall (answers Active) a) as HF.
    { clear -IH Hobs. induction IH as [|t a Ht HF IH']; [constructor|].
      cbn in Hobs. apply andb_true_iff in Hobs as [H1 H2]. constructor; auto. }
    destruct (range_all_spec a HF true) as (b & Hb & _). exists b. exact Hb.
Qed.

Lemma Active_answers_all (a : list Trigger) :
  forallb observed a = true -> Forall (answers Active) a.
Proof.
  induction a as [|t a IH]; cbn; intros H; [constructor|].
  apply andb_true_iff in H as [H1 H2]. constructor; [apply Active_answers; exact H1|auto].
Qed.

Lemma String_answers (t : Trigger) : observed t = true -> answers String_ t.
Proof.
  induction t as [p cur|p last cur|a IH|a IH] using Trigger_tree_ind;
    cbn [observed]; intros Hobs.
  - destruct cur as [c|]; [|discriminate]. eexists. reflexivity.
  - destruct cur as [c|]; [|discriminate]. destruct last; eexists; reflexivity.
  - assert (Forall (answers String_) a) as HF.
    { clear -IH Hobs. induction IH as [|t a Ht HF IH']; [constructor|].
      cbn in Hobs. apply andb_true_iff in Hobs as [H1 H2]. constructor; auto. }
    eexists. cbn [String_].
    rewrite (range_strs_spec a (Active_answers_all a Hobs) HF). reflexivity.
  - assert (Forall (answers String_) a) as HF.
    { clear -IH Hobs. induction IH as [|t a Ht HF IH']; [constructor|].
      cbn in Hobs. apply andb_true_iff in Hobs as [H1 H2]. constructor; auto. }
    eexists. cbn [String_].
    rewrite (range_strs_spec a (Active_answers_all a Hobs) HF). reflexivity.
Qed.

Lemma String_answers_all (a : list Trigger) :
  forallb observed a = true -> Forall (answers String_) a.
Proof.
  induction a as [|t a IH]; cbn; intros H; [constructor|].
  apply andb_true_iff in H as [H1 H2]. constructor; [apply String_answers; exact H1|auto].
Qed.
End TriggerLemmas.

Section TriggerClaims.
Import trigger.

Lemma observes_predicate (es : list dex.Entry) :
  forall p cur e,
    observes (predicateTrigger p cur) (es ++ [e]) = predicateTrigger p (Some e).
Proof.
  induction es as [|e' es IH]; intros p cur e; [reflexivity|].
  cbn [app]. rewrite observes_cons. apply IH.
Qed.

Lemma observes_predicate2 (es : list dex.Entry) :
  forall p last cur e0 e1,
    observes (predicate2Trigger p last cur) (es ++ [e0; e1])
    = predicate2Trigger p (Some e0) (Some e1).
Proof.
  induction es as [|e' es IH]; intros p last cur e0 e1; [reflexivity|].
  cbn [app]. rewrite observes_cons. apply IH.
Qed.

(** C8. After one or more observations through a combinator, whatever the
    state of its children before: All is active iff every child is active,
    Any is active iff some child is active, and neither call panics. The
    String of each is the text "All(" or "Any(", then the descriptions of
    the children that are active now, in their order and with a comma
    between each two, then ")"; it is computed from the children as they
    are. So All(Above(70), Below(180)) says "All(150 > 70,150 < 180)" after
    150, "All(200 > 70)" after 150 and then 200, and "All()" after 60 and
    then 200 seen by an Above(250) alone. *)
Theorem combinators_follow_children (a0 : list Trigger) (e : dex.Entry)
    (es : list dex.Entry) :
  let a := List.map (fun t => observes t (e :: es)) a0 in
  observes (Any a0) (e :: es) = Any a
  /\ observes (All a0) (e :: es) = All a
  /\ (exists b, Active (All a) = Returns b
                /\ (b = true <-> Forall (fun t => Active t = Returns true) a))
  /\ (exists b, Active (Any a) = Returns b
                /\ (b = true <-> Exists (fun t => Active t = Returns true) a))
  /\ String_ (All a)
     = Returns (String.append "All("
                  (String.append (String.concat "," (descriptions a)) ")"))
  /\ String_ (Any a)
     = Returns (String.append "Any("
                  (String.append (String.concat "," (descriptions a)) ")"))
  /\ (forall t d rest,
         Active t = Returns true -> String_ t = Returns d ->
         descriptions (t :: rest) = d :: descriptions rest)
  /\ (forall t rest,
         Active t = Returns false -> descriptions (t :: rest) = descriptions rest)
  /\ descriptions [] = []
  /\ String_ (observes (All [Above 70; Below 180]) [reading 0 150])
     = Returns "All(150 > 70,150 < 180)"
  /\ String_ (observes (Any [Above 70; Below 180]) [reading 0 150; reading 5 200])
     = Returns "Any(200 > 70)"
  /\ String_ (observes (All [Above 250]) [reading 0 60; reading 5 200])
     = Returns "All()"
  /\ String_ (observes (Any [Below 70; All [Above 100; Below 180]; Above 120])
                [reading 0 150])
     = Returns "Any(All(150 > 100,150 < 180),150 > 120)".
Proof.
  intros a.
  assert (forallb observed a = true) as Hobs.
  { apply forallb_map_Forall, Forall_forall. intros t _. apply observes_observed. }
  pose proof (Active_answers_all a Hobs) as HA.
  pose proof (String_answers_all a Hobs) as HS.
  split; [apply observes_any|]. split; [apply observes_all|].
  split.
  { destruct (range_all_spec a HA true) as (b & Hb & Hiff). exists b.
    split; [exact Hb|]. rewrite Hiff. tauto. }
  split; [exact (range_any_spec a HA)|].
  split; [unfold All; cbn [String_]; rewrite (range_strs_spec a HA HS); reflexivity|].
  split; [unfold Any; cbn [String_]; rewrite (range_strs_spec a HA HS); reflexivity|].
  split; [intros t d rest Ht Hd; cbn [descriptions]; rewrite Ht, Hd; reflexivity|].
  split; [intros t rest Ht; cbn [descriptions]; rewrite Ht; reflexivity|].
  repeat split; vm_compute; reflexivity.
Qed.

Lemma combinators_follow_children_witness :
  descriptions [observes (Below 70) [reading 0 150];
                observes (Above 120) [reading 0 150]]
  = ["150 > 120"].
Proof.
  destruct (combinators_follow_children [] (reading 0 150) [])
    as (_ & _ & _ & _ & _ & _ & Hon & Hoff & Hnil & _).
  rewrite (Hoff (observes (Below 70) [reading 0 150])) by reflexivity.
  rewrite (Hon (observes (Above 120) [reading 0 150]) "150 > 120" [])
    by reflexivity.
  rewrite Hnil. reflexivity.
Defined.

Example All_Above_Below_in_range :
  let t := observes (All [Above 70; Below 180]) [reading 0 150] in
  Active t = Returns true /\ String_ t = Returns "All(150 > 70,150 < 180)".
Proof. split; vm_compute; reflexivity. Qed.

Example All_Above_Below_high :
  let t := observes (All [Above 70; Below 180]) [reading 0 150; reading 5 200] in
  Active t = Returns false /\ String_ t = Returns "All(200 > 70)".
Proof. split; vm_compute; reflexivity. Qed.

(** With nothing observed yet, the Predicate leaves make the combinator
    panic too. *)
Example All_Above_Below_unobserved :
  Active (All [Above 70; Below 180]) = NilPanic
  /\ String_ (All [Above 70; Below 180]) = NilPanic.
Proof. split; reflexivity. Qed.

Example Above_100 :
  Active (observes (Above 100) [reading 0 150]) = Returns true
  /\ String_ (observes (Above 100) [reading 0 150]) = Returns "150 > 100"
  /\ Active (observes (Above 100) [reading 0 150; reading 5 90]) = Returns false.
Proof. repeat split; vm_compute; reflexivity. Qed.

(** C9. A trigger built with Predicate2 answers false and the empty string
    while it has observed no entry or one entry; once it has observed two
    or more, Active and String apply the predicate to the entry before the
    last and the last one. Delta is such a trigger. *)
Theorem predicate2_needs_two_entries (p : dex.Entry -> dex.Entry -> string) :
  (Active (Predicate2 p) = Returns false /\ String_ (Predicate2 p) = Returns "")
  /\ (forall e,
         Active (observes (Predicate2 p) [e]) = Returns false
         /\ String_ (observes (Predicate2 p) [e]) = Returns "")
  /\ (forall es e0 e1,
         Active (observes (Predicate2 p) (es ++ [e0; e1])) = Returns (nonempty (p e0 e1))
         /\ String_ (observes (Predicate2 p) (es ++ [e0; e1])) = Returns (p e0 e1))
  /\ (forall d, exists q, Delta d = Predicate2 q).
Proof.
  split; [split; reflexivity|]. split; [intros e; split; reflexivity|].
  split.
  - intros es e0 e1. unfold Predicate2. rewrite observes_predicate2.
    split; reflexivity.
  - intros d. eexists. reflexivity.
Qed.

(** C10. A trigger built with Predicate (Below, Above and Arrow are such)
    that has observed nothing panics on the nil current entry in Active and
    in String; after one or more observations both answer from the last
    entry. A Predicate2 trigger that has observed nothing answers false and
    the empty string instead. *)
Theorem predicate_panics_before_first_entry :
  (forall p, Active (Predicate p) = NilPanic /\ String_ (Predicate p) = NilPanic)
  /\ (forall bg, Active (Below bg) = NilPanic /\ String_ (Below bg) = NilPanic)
  /\ (forall bg, Active (Above bg) = NilPanic /\ String_ (Above bg) = NilPanic)
  /\ (forall dir, Active (Arrow dir) = NilPanic /\ String_ (Arrow dir) = NilPanic)
  /\ (forall p es e,
         Active (observes (Predicate p) (es ++ [e])) = Returns (nonempty (p e))
         /\ String_ (observes (Predicate p) (es ++ [e])) = Returns (p e))
  /\ (forall p2, Active (Predicate2 p2) = Returns false
                 /\ String_ (Predicate2 p2) = Returns "").
Proof.
  repeat split; try reflexivity;
    unfold Predicate; rewrite observes_predicate; reflexivity.
Qed.

Lemma flt_zero_asym (x : float64) : fgt x fzero = true -> flt x fzero = false.
Proof. destruct x as [[]|[]| |[] m e]; cbn; congruence. Qed.

Lemma fgt_zero_asym (x : float64) : flt x fzero = true -> fgt x fzero = false.
Proof. destruct x as [[]|[]| |[] m e]; cbn; congruence. Qed.

Lemma Delta_after_two (d : float64) (es : list dex.Entry) (e0 e1 : dex.Entry) :
  Active (observes (Delta d) (es ++ [e0; e1])) = Returns (crosses (rate e0 e1) d).
Proof.
  unfold Delta, Predicate2. rewrite observes_predicate2. cbn [Active deref bind].
  unfold crosses. f_equal.
  destruct (flt (rate e0 e1) fzero && flt d fzero && flt (rate e0 e1) d); [reflexivity|].
  destruct (fgt (rate e0 e1) fzero && fgt d fzero && fgt (rate e0 e1) d); reflexivity.
Qed.

Lemma float64_of_int_positive (m : Z) :
  0 < m ->
  match float64_of_int m with
  | S754_zero s | S754_infinity s | S754_finite s _ _ => s = false
  | S754_nan => True
  end.
Proof.
  intros Hm. destruct m as [|p|p]; try lia.
  unfold float64_of_int, binary_normalize, binary_round.
  destruct (shl_align p 0 _) as [mz ez].
  unfold binary_round_aux.
  destruct (shr_fexp prec64 emax64 (Z.pos mz) ez loc_Exact) as [mrs e'].
  destruct (shr_fexp prec64 emax64 _ e' loc_Exact) as [mrs' e''].
  destruct (shr_m mrs'); [reflexivity| |exact I].
  destruct (e'' <=? emax64 - prec64); reflexivity.
Qed.

Lemma fadd_zero_r (x : float64) :
  match x with
  | S754_zero s | S754_infinity s | S754_finite s _ _ => s = false
  | S754_nan => True
  end ->
  fadd x fzero = x.
Proof. destruct x as [[]|[]| |[] m e]; intros H; try discriminate H; reflexivity. Qed.

(** A whole number of minutes, as a Duration, is that number in Minutes. *)
Lemma Minutes_whole (m : Z) :
  0 < m -> dex.Minutes (m * 60000000000) = float64_of_int m.
Proof.
  intros Hm. unfold dex.Minutes, dex.Minute, dex.Second.
  change (60 * 1000000000) with 60000000000.
  rewrite Z.quot_mul, Z.rem_mul by lia.
  change (fdiv (float64_of_int 0) (float64_of_int 60000000000)) with fzero.
  apply fadd_zero_r, float64_of_int_positive. exact Hm.
Qed.

(** C7. Once Delta(d) has observed e0 and then e1, whatever their times and
    values, it is active exactly when the rate and d are both below zero
    with the rate below d, or both above zero with the rate above d. The
    rate is the float64 quotient of the value difference e1.Value - e0.Value
    (an int, wrapping) by the minutes of e1.Time - e0.Time (a Duration,
    saturating): it is written out here in the operations of binary64 and of
    the integers, not in those of the model. For entries a whole number m of
    minutes apart, the later one second, it is float64(e1.Value - e0.Value) /
    float64(m). Delta is not active when the rate and d point in opposite
    directions, and Delta(0) is never active. With the threshold -2, 150
    then 130 five minutes later is a rate of -4 and active, 150 then 145 a
    rate of -1 and not active, and 150 at minute 7 then 141 at minute 10 a
    rate of -3 and active; with the threshold 3, 150 then 152 half a minute
    later is a rate of 4 and active. *)
Theorem Delta_active_in_direction (d : float64) (es : list dex.Entry)
    (e0 e1 : dex.Entry) :
  let of_int := fun x : Z => binary_normalize 53 1024 x 0 false in
  let zero := S754_zero false in
  let dv := (dex.Value e1 - dex.Value e0 + 2 ^ 63) mod 2 ^ 64 - 2 ^ 63 in
  let dt := Z.max (- 2 ^ 63) (Z.min (2 ^ 63 - 1) (dex.Time_ e1 - dex.Time_ e0)) in
  let minutes :=
    SFadd 53 1024 (of_int (Z.quot dt 60000000000))
          (SFdiv 53 1024 (of_int (Z.rem dt 60000000000)) (of_int 60000000000)) in
  let r := SFdiv 53 1024 (of_int dv) minutes in
  Active (observes (Delta d) (es ++ [e0; e1]))
  = Returns ((SFltb r zero && SFltb d zero && SFltb r d)
             || (SFltb zero r && SFltb zero d && SFltb d r))
  /\ (forall m,
         0 < m -> m * 60000000000 <= 2 ^ 63 - 1 ->
         dex.Time_ e1 - dex.Time_ e0 = m * 60000000000 ->
         r = SFdiv 53 1024 (of_int dv) (of_int m))
  /\ ((SFltb zero r = true /\ SFltb d zero = true)
      \/ (SFltb r zero = true /\ SFltb zero d = true) ->
      Active (observes (Delta d) (es ++ [e0; e1])) = Returns false)
  /\ (forall sign,
         Active (observes (Delta (S754_zero sign)) (es ++ [e0; e1])) = Returns false)
  /\ (rate (reading 0 150) (reading 5 130) = float64_of_int (-4)
      /\ Active (observes (Delta (float64_of_int (-2))) [reading 0 150; reading 5 130])
         = Returns true)
  /\ (rate (reading 0 150) (reading 5 145) = float64_of_int (-1)
      /\ Active (observes (Delta (float64_of_int (-2))) [reading 0 150; reading 5 145])
         = Returns false)
  /\ (rate (reading 7 150) (reading 10 141) = float64_of_int (-3)
      /\ Active (observes (Delta (float64_of_int (-2))) [reading 7 150; reading 10 141])
         = Returns true)
  /\ (rate (dex.mkEntry (dex.Unix 1445011200 0) 150 dex.Flat "")
           (dex.mkEntry (dex.Unix 1445011230 0) 152 dex.Flat "")
      = float64_of_int 4
      /\ Active (observes (Delta (float64_of_int 3))
                   [dex.mkEntry (dex.Unix 1445011200 0) 150 dex.Flat "";
                    dex.mkEntry (dex.Unix 1445011230 0) 152 dex.Flat ""])
         = Returns true).
Proof.
  intros of_int zero dv dt minutes r.
  assert (rate e0 e1 = r) as Hrate by reflexivity.
  split; [rewrite Delta_after_two, Hrate; reflexivity|].
  split; [|split; [|split]].
  - intros m Hm Hfit Hdt. unfold r. f_equal. unfold minutes, dt. rewrite Hdt.
    rewrite Z.min_r, Z.max_r by lia.
    exact (Minutes_whole m Hm).
  - rewrite Delta_after_two, Hrate. unfold crosses.
    change (flt r fzero) with (SFltb r zero). change (fgt r fzero) with (SFltb zero r).
    change (flt d fzero) with (SFltb d zero). change (fgt d fzero) with (SFltb zero d).
    intros [[Hr Hd]|[Hr Hd]].
    + pose proof (flt_zero_asym r Hr) as H1. pose proof (fgt_zero_asym d Hd) as H2.
      change (SFltb r zero = false) in H1. change (SFltb zero d = false) in H2.
      rewrite H1, H2, Hr. reflexivity.
    + pose proof (fgt_zero_asym r Hr) as H1. pose proof (flt_zero_asym d Hd) as H2.
      change (SFltb zero r = false) in H1. change (SFltb d zero = false) in H2.
      rewrite H1, H2, Hr. reflexivity.
  - intros sign. rewrite Delta_after_two. unfold crosses.
    replace (flt (S754_zero sign) fzero) with false by (destruct sign; reflexivity).
    replace (fgt (S754_zero sign) fzero) with false by (destruct sign; reflexivity).
    rewrite !andb_false_r. reflexivity.
  - repeat split; vm_compute; reflexivity.
Qed.

Lemma Delta_active_in_direction_witness :
  (let of_int := fun x : Z => binary_normalize 53 1024 x 0 false in
   SFdiv 53 1024 (of_int ((130 - 100 + 2 ^ 63) mod 2 ^ 64 - 2 ^ 63))
         (SFadd 53 1024 (of_int 5) (SFdiv 53 1024 (of_int 0) (of_int 60000000000)))
   = SFdiv 53 1024 (of_int ((130 - 100 + 2 ^ 63) mod 2 ^ 64 - 2 ^ 63)) (of_int 5))
  /\ Active (observes (Delta (float64_of_int (-2))) ([] ++ [reading 0 100; reading 5 130]))
     = Returns false.
Proof.
  destruct (Delta_active_in_direction (float64_of_int (-2)) []
              (reading 0 100) (reading 5 130)) as (_ & Hwhole & Hopposite & _).
  split.
  - apply (Hwhole 5); [lia|vm_compute; discriminate|reflexivity].
  - apply Hopposite. left. split; vm_compute; reflexivity.
Defined.
End TriggerClaims.

(** * Further properties of package dex *)

Section TailFurther.
Import dex.

(** X1. Whatever the service answers, Tail does not panic (the slice index
    of line 277 is always in range), it gives no return only while the fetch
    loop is still turning, and when it returns an error it returns no
    entry with it. *)
Theorem Tail_all_or_nothing howlong s script :
  match fst (fst (Tail howlong s script)) with
  | Return ents err => err = None \/ ents = []
  | Panics => False
  | NoReturn => fst (fst (Tail_loop howlong s script)) = Retrying
  end.
Proof.
  unfold Tail. destruct (Tail_loop howlong s script) as [[r s'] fx].
  destruct r as [body|e|]; cbn [fst]; [|right; reflexivity|reflexivity].
  destruct body as [e|raw [ejs|]]; [right; reflexivity| |right; reflexivity].
  rewrite Tail_decode_spec. pose proof (entries_of_no_panic ejs) as Hnp.
  destruct (entries_of ejs) as [ens|e|]; [left|right|contradiction]; reflexivity.
Qed.

Lemma entries_of_first_bad (good : list entryJson) :
  forall bad rest e,
    Forall (fun ej => malformed ej = false) good ->
    msecs_of bad = Err e ->
    entries_of (good ++ bad :: rest) = Err e.
Proof.
  induction good as [|ej good IH]; intros bad rest e Hgood Hbad.
  - cbn [app entries_of]. rewrite Hbad. reflexivity.
  - apply Forall_cons in Hgood as [Hej Hgood]. cbn [app entries_of].
    unfold malformed in Hej. destruct (msecs_of ej) as [ms|e'|]; try discriminate.
    rewrite (IH bad rest e Hgood Hbad). reflexivity.
Qed.

(** X2. When several records of a batch are bad, the error Tail returns is
    that of the first bad record in the order of the response; records after
    it are not looked at. *)
Theorem Tail_reports_first_bad_record howlong s script raw good bad rest e s' fx :
  Tail_loop howlong s script
  = (Broke (BodyBytes raw (Some (good ++ bad :: rest))), s', fx) ->
  Forall (fun ej => malformed ej = false) good ->
  msecs_of bad = Err e ->
  Tail howlong s script = (Return [] (Some e), s', fx).
Proof.
  intros Hloop Hgood Hbad.
  rewrite (Tail_of_loop _ _ _ _ _ _ Hloop), Tail_decode_spec.
  rewrite (entries_of_first_bad good bad rest e Hgood Hbad). reflexivity.
Qed.

Lemma Tail_reports_first_bad_record_witness :
  Tail (5 * Minute) a_session
       [serves ([a_record "/Date(1445011500000)/" 4 120]
                ++ a_record "/Date(99999999999999999999)/" 4 118
                   :: [a_record "no date" 4 117])]
  = (Return [] (Some (ErrRange "99999999999999999999")), a_session,
     [Query "token-1" (5 * Minute)]).
Proof.
  apply (Tail_reports_first_bad_record _ _ _ "[...]"
           [a_record "/Date(1445011500000)/" 4 120]
           (a_record "/Date(99999999999999999999)/" 4 118)
           [a_record "no date" 4 117]).
  - vm_compute; reflexivity.
  - repeat constructor.
  - vm_compute; reflexivity.
Defined.

Lemma Tail_loop_session howlong (script : list Exchange) :
  forall s,
    let s' := snd (fst (Tail_loop howlong s script)) in
    path s' = path s /\ user s' = user s /\ pass s' = pass s
    /\ (token s' = token s
        \/ Exists (fun x => exists saved, relogin x = LoginOk (token s') saved) script).
Proof.
  induction script as [|x script IH]; intros s; cbn [Tail_loop].
  - cbn. auto.
  - destruct (answer x) as [e|st body]; [cbn; auto|].
    destruct (st <? 400); [cbn; auto|].
    destruct (relogin x) as [e|tok saved] eqn:Hr; cbn [refresh]; [cbn; auto|].
    change (0 + 1 =? 5) with false. cbv iota.
    specialize (IH (mkSession tok (path s) (user s) (pass s))).
    destruct (Tail_loop howlong _ script) as [[r s''] fx'].
    cbn [fst snd path user pass token] in *.
    destruct IH as (Hp & Hu & Hpw & Ht). repeat split; try assumption.
    right. destruct Ht as [Ht|Ht].
    + apply Exists_cons_hd. exists saved. rewrite Ht. exact Hr.
    + apply Exists_cons_tl. exact Ht.
Qed.

(** X3. Tail never changes the path, the user or the password of the
    session; the token it leaves is the one it started with or one a login
    of this call returned. *)
Theorem Tail_keeps_credentials howlong s script :
  let s' := snd (fst (Tail howlong s script)) in
  path s' = path s /\ user s' = user s /\ pass s' = pass s
  /\ (token s' = token s
      \/ Exists (fun x => exists saved, relogin x = LoginOk (token s') saved) script).
Proof.
  pose proof (Tail_loop_session howlong script s) as H.
  unfold Tail. destruct (Tail_loop howlong s script) as [[r s'] fx].
  destruct r; exact H.
Qed.

Lemma Tail_loop_after_expiries howlong (pre : list Exchange) :
  forall s rest,
    Forall expires pre ->
    exists s1 fx1,
      queries fx1 = length pre /\ logins fx1 = length pre
      /\ path s1 = path s /\ user s1 = user s /\ pass s1 = pass s
      /\ (forall x, last pre = Some x -> exists saved, relogin x = LoginOk (token s1) saved)
      /\ (pre = [] -> s1 = s)
      /\ Tail_loop howlong s (pre ++ rest)
         = (let '(r, s2, fx2) := Tail_loop howlong s1 rest in (r, s2, fx1 ++ fx2)).
Proof.
  induction pre as [|x pre IH]; intros s rest Hpre.
  - exists s, []. cbn [app length]. repeat split; try reflexivity; [discriminate|].
    destruct (Tail_loop howlong s rest) as [[r s2] fx2]. reflexivity.
  - apply Forall_cons in Hpre as [(st & body & tok & saved & Ha & Hst & Hr) Hpre].
    destruct (IH (mkSession tok (path s) (user s) (pass s)) rest Hpre)
      as (s1 & fx1 & Hq & Hl & Hp & Hu & Hpw & Hlast & Hnil & Hloop).
    exists s1,
      (Query (token s) howlong :: (Login (user s) :: (if saved then [] else [LogSaveFailed]))
       ++ fx1).
    cbn [path user pass] in *.
    split; [|split; [|split; [|split; [|split; [|split; [|split]]]]]];
      try assumption; try discriminate.
    + unfold queries in *. destruct saved; cbn; rewrite Hq; reflexivity.
    + unfold logins in *. destruct saved; cbn; rewrite Hl; reflexivity.
    + intros y Hy. rewrite last_cons in Hy. destruct (last pre) as [z|] eqn:Hz.
      * apply Hlast. exact Hy.
      * injection Hy as <-. apply last_None in Hz. rewrite (Hnil Hz).
        exists saved. exact Hr.
    + cbn [app Tail_loop]. rewrite Ha, Hr.
      replace (st <? 400) with false by (symmetry; apply Z.ltb_ge; lia).
      cbn [refresh]. change (0 + 1 =? 5) with false. cbv iota.
      rewrite Hloop. destruct (Tail_loop howlong s1 rest) as [[r s2] fx2].
      cbn [app]. rewrite <- app_assoc. reflexivity.
Qed.

(** X4. Answers of 400 or more, each followed by a login that succeeds, do
    not change what Tail makes of the rest of the service's answers, however
    many they are: Tail sends one query and one login for each of them, and
    then goes on as a fresh call of Tail would with the token of the last
    login. *)
Theorem Tail_after_expiries howlong s pre rest :
  Forall expires pre ->
  exists s1 fx1,
    queries fx1 = length pre /\ logins fx1 = length pre
    /\ (forall x, last pre = Some x -> exists saved, relogin x = LoginOk (token s1) saved)
    /\ Tail howlong s (pre ++ rest)
       = (let '(r, s2, fx2) := Tail howlong s1 rest in (r, s2, fx1 ++ fx2)).
Proof.
  intros Hpre.
  destruct (Tail_loop_after_expiries howlong pre s rest Hpre)
    as (s1 & fx1 & Hq & Hl & _ & _ & _ & Hlast & _ & Hloop).
  exists s1, fx1. repeat split; try assumption.
  unfold Tail. rewrite Hloop.
  destruct (Tail_loop howlong s1 rest) as [[r s2] fx2]. destruct r; reflexivity.
Qed.

Lemma Tail_after_expiries_witness :
  exists s1 fx1,
    queries fx1 = 7%nat /\ logins fx1 = 7%nat
    /\ Tail (5 * Minute) a_session
            (replicate 7 expired ++ [serves [a_record "/Date(1445011200000)/" 4 120]])
       = (let '(r, s2, fx2) :=
            Tail (5 * Minute) s1 [serves [a_record "/Date(1445011200000)/" 4 120]] in
          (r, s2, fx1 ++ fx2)).
Proof.
  assert (Forall expires (replicate 7 expired)) as Hpre.
  { apply Forall_replicate. exists 401, (BodyBytes "" None), "token-2", true.
    split; [reflexivity|]. split; [lia|reflexivity]. }
  destruct (Tail_after_expiries (5 * Minute) a_session (replicate 7 expired)
              [serves [a_record "/Date(1445011200000)/" 4 120]] Hpre)
    as (s1 & fx1 & Hq & Hl & _ & Heq).
  exists s1, fx1. repeat split; assumption.
Defined.
End TailFurther.

Section DatePatFurther.
Import dex.

(** X5. datePat matches exactly the strings that hold a non-empty text
    between an opening parenthesis and the next closing one; what
    FindStringSubmatch returns then always has two elements, the whole match
    and such a text, so the test [len(matches) != 2] of line 268 never
    holds for a match. *)
Theorem FindStringSubmatch_shape (s : string) :
  match FindStringSubmatch s with
  | Some m => exists whole g, m = [whole; g] /\ has_group s g
  | None => forall g, ~ has_group s g
  end.
Proof.
  destruct (FindStringSubmatch s) as [m|] eqn:Hm.
  - apply FindStringSubmatch_sound. exact Hm.
  - intros g Hg. destruct (FindStringSubmatch_complete s g Hg) as [m Hm'].
    congruence.
Qed.

Lemma every_app (cls : ascii -> bool) (a b : string) :
  every cls (String.append a b) = every cls a && every cls b.
Proof.
  induction a as [|c a IH]; [reflexivity|].
  rewrite append_cons. cbn [every]. rewrite IH, andb_assoc. reflexivity.
Qed.

Lemma append_empty_r (s : string) : String.append s "" = s.
Proof. induction s as [|c s IH]; [reflexivity|]. rewrite append_cons, IH. reflexivity. Qed.

Lemma star_none {R : Type} (cls : ascii -> bool) (k : string -> option R) (s : string) :
  every cls s = true -> fails_all k s -> star cls k s = None.
Proof.
  induction s as [|c s IH]; cbn [every fails_all star]; intros Hs [Hk Hrest].
  - exact Hk.
  - apply andb_true_iff in Hs as [Hc Hs]. rewrite Hc, (IH Hs Hrest). exact Hk.
Qed.

(** The greedy repetition gives way to the last place where the rest of the
    pattern matches. *)
Lemma star_last {R : Type} (cls : ascii -> bool) (k : string -> option R)
    (pre : string) (c : ascii) (rest : string) (r : R) :
  every cls pre = true -> cls c = true -> every cls rest = true ->
  fails_all k rest -> k (String c rest) = Some r ->
  star cls k (String.append pre (String c rest)) = Some r.
Proof.
  intros Hpre Hc Hrest Hfail Hk.
  induction pre as [|c0 pre IH].
  - rewrite append_nil. cbn [star]. rewrite Hc, (star_none cls k rest Hrest Hfail).
    exact Hk.
  - cbn [every] in Hpre. apply andb_true_iff in Hpre as [Hc0 Hpre].
    rewrite append_cons. cbn [star]. rewrite Hc0, (IH Hpre). reflexivity.
Qed.

(** The greedy repetition runs up to the first character outside the class
    when the rest of the pattern matches there. *)
Lemma star_stop {R : Type} (cls : ascii -> bool) (k : string -> option R)
    (g : string) (c : ascii) (rest : string) (r : R) :
  every cls g = true -> cls c = false -> k (String c rest) = Some r ->
  star cls k (String.append g (String c rest)) = Some r.
Proof.
  intros Hg Hc Hk. induction g as [|c0 g IH].
  - rewrite append_nil. cbn [star]. rewrite Hc. exact Hk.
  - cbn [every] in Hg. apply andb_true_iff in Hg as [Hc0 Hg].
    rewrite append_cons. cbn [star]. rewrite Hc0, (IH Hg). reflexivity.
Qed.

Lemma star_all {R : Type} (cls : ascii -> bool) (k : string -> option R)
    (s : string) (r : R) :
  every cls s = true -> k "" = Some r -> star cls k s = Some r.
Proof.
  intros Hs Hk. induction s as [|c s IH]; cbn [star]; [exact Hk|].
  cbn [every] in Hs. apply andb_true_iff in Hs as [Hc Hs].
  rewrite Hc, (IH Hs). reflexivity.
Qed.

Lemma fails_all_lit {R : Type} (k : string -> option R) (s : string) :
  every notLParen s = true -> fails_all (lit "(" k) s.
Proof.
  induction s as [|c s IH]; cbn [every fails_all]; intros Hs.
  - split; reflexivity.
  - apply andb_true_iff in Hs as [Hc Hs]. split; [|apply IH; exact Hs].
    cbn [lit]. unfold notLParen in Hc. apply negb_true_iff in Hc. rewrite Hc.
    reflexivity.
Qed.

Lemma FindStringSubmatch_here (s : string) (m : list string) :
  datePat_here s = Some m -> FindStringSubmatch s = Some m.
Proof. intros H. destruct s; cbn [FindStringSubmatch]; rewrite H; reflexivity. Qed.

(** X6. In a text of one line, datePat takes the last parenthesised text:
    when nothing after the opening parenthesis is another opening
    parenthesis, the match is the whole line and group 1 is the text between
    that parenthesis and the closing one, whatever comes before. *)
Theorem FindStringSubmatch_last_group (pre g post : string) :
  every dot pre = true ->
  g <> "" -> every dot g = true -> every notLParen g = true ->
  every notRParen g = true ->
  every dot post = true -> every notLParen post = true ->
  FindStringSubmatch
    (String.append pre (String "(" (String.append g (String ")" post))))
  = Some [String.append pre (String "(" (String.append g (String ")" post))); g].
Proof.
  intros Hpre Hne Hgd Hgl Hgr Hpd Hpl.
  apply FindStringSubmatch_here. unfold datePat_here.
  set (s := String.append pre (String "(" (String.append g (String ")" post)))).
  unfold s at 2.
  apply star_last.
  - exact Hpre.
  - reflexivity.
  - rewrite every_app. cbn [every]. rewrite Hgd, Hpd. reflexivity.
  - apply fails_all_lit. rewrite every_app. cbn [every]. rewrite Hgl, Hpl. reflexivity.
  - cbn [lit]. change (Ascii.eqb "(" "(") with true. cbv iota.
    destruct g as [|c g]; [contradiction|].
    cbn [every] in Hgr. apply andb_true_iff in Hgr as [Hc Hgr].
    rewrite append_cons. cbn [plus]. rewrite Hc.
    apply star_stop; [exact Hgr|reflexivity|].
    cbn [lit]. change (Ascii.eqb ")" ")") with true. cbv iota.
    apply star_all; [exact Hpd|].
    rewrite <- (append_empty_r s) at 1. rewrite upto_app.
    rewrite <- append_cons, upto_app. reflexivity.
Qed.

Lemma FindStringSubmatch_last_group_witness :
  FindStringSubmatch
    (String.append "(old) /Date" (String "(" (String.append "1445011200000" (String ")" "/"))))
  = Some [String.append "(old) /Date"
            (String "(" (String.append "1445011200000" (String ")" "/")));
          "1445011200000"].
Proof.
  apply FindStringSubmatch_last_group; try reflexivity. discriminate.
Defined.
End DatePatFurther.

Section StreamFurther.
Import dex.

Lemma filter_close_app (a b : list action) :
  List.filter is_close (a ++ b) = List.filter is_close a ++ List.filter is_close b.
Proof. apply List.filter_app. Qed.

Lemma turn_no_close (st : state) (p : poll) :
  List.filter is_close (fst (turn st p)) = [].
Proof.
  unfold turn. destruct (tail_err p) as [e|].
  - cbn [fst]. rewrite !filter_close_app. destruct (After (eta st) (now p)); reflexivity.
  - rewrite scan_spec.
    assert (forall ens, List.filter is_close (List.map Send ens) = []) as Hsend
      by (intros ens; induction ens; [reflexivity|assumption]).
    destruct (last (fresh (begin st) (tail_entries p))); cbn [fst];
      rewrite !filter_close_app, Hsend; destruct (After (eta st) (now p)); reflexivity.
Qed.

Lemma loop_running (polls : list poll) :
  forall st,
    Forall (fun q => tail_err q = None) polls ->
    exists acts st',
      loop st polls = (acts, Some st') /\ List.filter is_close acts = [].
Proof.
  induction polls as [|p polls IH]; intros st Hok.
  - exists [], st. split; reflexivity.
  - apply Forall_cons in Hok as [Hp Hok].
    destruct (turn_spec st p Hp) as (a & Hturn & _).
    pose proof (turn_no_close st p) as Hnc. rewrite Hturn in Hnc. cbn [fst] in Hnc.
    cbn [loop]. rewrite Hturn.
    match goal with |- context [loop ?st1 polls] =>
      destruct (IH st1 Hok) as (a' & st' & -> & Hnc') end.
    exists (a ++ a'), st'. split; [reflexivity|].
    rewrite filter_close_app, Hnc, Hnc'. reflexivity.
Qed.

(** X7. Stream goes on while the fetches succeed and never closes the
    channel then. At the first fetch that fails it logs, closes the channel
    once, as its last action, and returns: it sends nothing from that poll
    and is not there for the polls after it. *)
Theorem Stream_stops_at_first_error begin0 start pre p post e :
  Forall (fun q => tail_err q = None) pre ->
  tail_err p = Some e ->
  exists acts1 st1 acts_p,
    Stream begin0 start pre = (acts1, Some st1)
    /\ List.filter is_close acts1 = []
    /\ Stream begin0 start (pre ++ p :: post)
       = (acts1 ++ acts_p ++ [LogFailed; Close], None)
    /\ List.filter is_close acts_p = []
    /\ sent (acts1 ++ acts_p ++ [LogFailed; Close]) = sent acts1.
Proof.
  intros Hpre Hp. unfold Stream.
  destruct (loop_running pre (mkState begin0 start (0 * Second) (0 * Second)) Hpre)
    as (acts1 & st1 & Hloop & Hnc).
  exists acts1, st1,
    ((if After (eta st1) (now p) then [Sleep (Sub (eta st1) (now p))] else [])
     ++ [Sleep (penalty st1);
         CallTail (wrap64 (Sub (since p) (begin st1) + 5 * Minute))]).
  split; [exact Hloop|]. split; [exact Hnc|].
  split; [|split].
  - rewrite loop_app, Hloop. cbn [loop]. unfold turn. rewrite Hp.
    rewrite <- !app_assoc. reflexivity.
  - destruct (After (eta st1) (now p)); reflexivity.
  - rewrite !sent_app. destruct (After (eta st1) (now p)); cbn; rewrite app_nil_r;
      reflexivity.
Qed.

Lemma Stream_stops_at_first_error_witness :
  exists acts1 st1 acts_p,
    Stream (Unix 1000 0) (Unix 1010 0) three_polls = (acts1, Some st1)
    /\ Stream (Unix 1000 0) (Unix 1010 0)
         (three_polls ++ mkPoll (Unix 1900 0) (Unix 1900 0) [] (Some (ErrTransport "timeout"))
                         :: three_polls)
       = (acts1 ++ acts_p ++ [LogFailed; Close], None)
    /\ sent (acts1 ++ acts_p ++ [LogFailed; Close]) = sent acts1.
Proof.
  assert (Forall (fun q => tail_err q = None) three_polls) as Hpre
    by (repeat constructor).
  destruct (Stream_stops_at_first_error (Unix 1000 0) (Unix 1010 0) three_polls
              (mkPoll (Unix 1900 0) (Unix 1900 0) [] (Some (ErrTransport "timeout")))
              three_polls (ErrTransport "timeout") Hpre eq_refl)
    as (acts1 & st1 & acts_p & H1 & _ & H2 & _ & H3).
  exists acts1, st1, acts_p. repeat split; assumption.
Defined.

Lemma turn_cursor_le (st : state) (p : poll) (acts : list action) (st' : state) :
  turn st p = (acts, Some st') -> begin st <= begin st'.
Proof.
  intros Hturn. destruct (tail_err p) as [e|] eqn:Herr.
  - destruct (turn_failed st p e Herr) as (a & Ha & _). congruence.
  - destruct (turn_spec st p Herr) as (a & Ha & _). rewrite Ha in Hturn.
    injection Hturn as _ <-.
    destruct (last (fresh (begin st) (tail_entries p))) as [x|] eqn:Hl;
      cbn [begin]; [|lia].
    apply last_Some_elem_of in Hl.
    pose proof (fresh_newer (begin st) (tail_entries p)) as Hn.
    rewrite Forall_forall in Hn. specialize (Hn x Hl). lia.
Qed.

(** X8. Fetching again what was fetched before sends nothing: after a poll
    whose batch is strictly ascending, a poll whose batch holds only entries
    of that batch is a quiet one, so no entry is sent twice and the backoff
    of the quiet polls applies. *)
Theorem Stream_refetch_is_quiet st p p' acts st' :
  ascending (times (tail_entries p)) ->
  turn st p = (acts, Some st') ->
  Forall (fun e => In e (tail_entries p)) (tail_entries p') ->
  tail_err p' = None ->
  quiet (begin st') p'.
Proof.
  intros Hasc Hturn Hsub Herr'. split; [exact Herr'|].
  pose proof (turn_cursor_le _ _ _ _ Hturn) as Hle.
  destruct (tail_err p) as [e|] eqn:Herr.
  { destruct (turn_failed st p e Herr) as (a & Ha & _). congruence. }
  destruct (turn_cursor st p Herr) as (a & st1 & Ha & Hsent & Hcur).
  rewrite Ha in Hturn. injection Hturn as <- <-.
  pose proof (ascending_le_last _ (begin st) (fresh_ascending (begin st) _ Hasc)) as Hlast.
  rewrite Hsent in Hcur. unfold newest_time in Hcur.
  rewrite Forall_forall in Hlast.
  unfold fresh at 1.
  induction Hsub as [|x l Hx Hsub IH]; [reflexivity|].
  cbn [List.filter].
  replace (After (Time_ x) (begin st1)) with false; [exact IH|].
  symmetry. unfold After. apply Z.ltb_ge.
  destruct (After (Time_ x) (begin st)) eqn:Hnew.
  - rewrite Hcur. apply Hlast.
    apply list_elem_of_In, in_map. apply filter_In. split; assumption.
  - unfold After in Hnew. apply Z.ltb_ge in Hnew. lia.
Qed.

Lemma Stream_refetch_is_quiet_witness :
  quiet (Unix 1300 0) (a_poll 1011 [an_entry 1000 112; an_entry 1300 115]).
Proof.
  apply (Stream_refetch_is_quiet
           (mkState (Unix 1000 0) (Unix 1010 0) 0 0)
           (a_poll 1010 [an_entry 700 110; an_entry 1000 112; an_entry 1300 115])
           (a_poll 1011 [an_entry 1000 112; an_entry 1300 115])
           (fst (turn (mkState (Unix 1000 0) (Unix 1010 0) 0 0)
                   (a_poll 1010 [an_entry 700 110; an_entry 1000 112; an_entry 1300 115])))
           (mkState (Unix 1300 0) (Unix 1600 0) 0 0)).
  - unfold ascending. repeat (constructor; [|repeat constructor; reflexivity]). constructor.
  - vm_compute; reflexivity.
  - constructor; [right; left; reflexivity|].
    constructor; [right; right; left; reflexivity|constructor].
  - reflexivity.
Defined.
End StreamFurther.

Section StreamSchedule.
Import dex.

Lemma lookbacks_app (a b : list action) : lookbacks (a ++ b) = lookbacks a ++ lookbacks b.
Proof. apply omap_app. Qed.

Lemma lookbacks_Send (ens : list Entry) : lookbacks (List.map Send ens) = [].
Proof. induction ens as [|e ens IH]; [reflexivity|exact IH]. Qed.

Lemma turn_lookbacks (st : state) (p : poll) :
  lookbacks (fst (turn st p)) = [wrap64 (Sub (since p) (begin st) + 5 * Minute)].
Proof.
  unfold turn. destruct (tail_err p) as [e|].
  - cbn [fst]. rewrite !lookbacks_app. destruct (After (eta st) (now p)); reflexivity.
  - rewrite scan_spec.
    destruct (last (fresh (begin st) (tail_entries p))); cbn [fst];
      rewrite !lookbacks_app, lookbacks_Send; destruct (After (eta st) (now p));
      reflexivity.
Qed.

Lemma wrap64_above (x : Z) :
  maxInt64 < x <= maxInt64 + 2 ^ 63 -> wrap64 x = x - 2 ^ 64.
Proof.
  unfold wrap64, maxInt64. intros H.
  replace (x + 2 ^ 63) with ((x - 2 ^ 63) + 1 * 2 ^ 64) by lia.
  rewrite Z_mod_plus_full, Z.mod_small; lia.
Qed.

(** X9. Every turn of Stream calls Tail once. The lookback it asks for is
    the time since the cursor plus five minutes as long as that fits an
    int64 of nanoseconds; for a cursor more than about 292 years before the
    clock (the zero [time.Time] is one) the sum wraps around and Tail is
    called with a negative duration. *)
Theorem Stream_lookback (st : state) (p : poll) :
  exists dur,
    lookbacks (fst (turn st p)) = [dur]
    /\ (minInt64 <= since p - begin st <= maxInt64 - 5 * Minute ->
        dur = since p - begin st + 5 * Minute)
    /\ (maxInt64 - 5 * Minute < since p - begin st ->
        dur = Z.min maxInt64 (since p - begin st) + 5 * Minute - 2 ^ 64 /\ dur < 0).
Proof.
  exists (wrap64 (Sub (since p) (begin st) + 5 * Minute)).
  split; [apply turn_lookbacks|]. unfold Sub, Minute, Second, minInt64, maxInt64.
  split; intros H.
  - rewrite Z.min_r, Z.max_r by lia.
    apply wrap64_small. unfold minInt64, maxInt64. lia.
  - rewrite Z.max_r by lia.
    rewrite wrap64_above by (unfold maxInt64; lia). lia.
Qed.

Lemma Stream_lookback_witness :
  (exists dur,
      lookbacks (fst (turn (mkState (Unix 1445011200 0) (Unix 1445011500 0) 0 0)
                        (a_poll 1445011510 [])))
      = [dur] /\ dur = 310 * Second + 5 * Minute)
  /\ (exists dur,
         lookbacks (fst (turn (mkState zeroTime (Unix 1445011500 0) 0 0)
                           (a_poll 1445011510 [])))
         = [dur] /\ dur < 0).
Proof.
  split.
  - destruct (Stream_lookback (mkState (Unix 1445011200 0) (Unix 1445011500 0) 0 0)
                (a_poll 1445011510 [])) as (dur & Hl & Hfit & _).
    exists dur. split; [exact Hl|]. rewrite Hfit; [reflexivity|].
    vm_compute. split; discriminate.
  - destruct (Stream_lookback (mkState zeroTime (Unix 1445011500 0) 0 0)
                (a_poll 1445011510 [])) as (dur & Hl & _ & Hwrap).
    exists dur. split; [exact Hl|]. apply Hwrap. vm_compute. reflexivity.
Defined.

Lemma loop_eta (polls : list poll) :
  forall st acts st',
    loop st polls = (acts, Some st') ->
    (sent acts = [] /\ begin st' = begin st /\ eta st' = eta st)
    \/ (sent acts <> [] /\ eta st' = Add (begin st') (5 * Minute)).
Proof.
  induction polls as [|p polls IH]; intros st acts st' Hloop.
  - injection Hloop as <- <-. left. repeat split.
  - cbn [loop] in Hloop. destruct (tail_err p) as [e|] eqn:Herr.
    + destruct (turn_failed st p e Herr) as (a & Ha & _). rewrite Ha in Hloop.
      discriminate.
    + destruct (turn_spec st p Herr) as (a & Ha & Hsent). rewrite Ha in Hloop.
      destruct (loop _ polls) as [a' fin] eqn:Hrest.
      injection Hloop as <- ->. apply IH in Hrest. rewrite sent_app, Hsent.
      destruct (last (fresh (begin st) (tail_entries p))) as [x|] eqn:Hl.
      * right. cbn [begin eta] in Hrest.
        split; [intros Hnil; apply app_eq_nil in Hnil as [Hnil _];
                rewrite Hnil in Hl; discriminate|].
        destruct Hrest as [(_ & Hb & He)|(_ & He)]; [|exact He].
        rewrite He, Hb. reflexivity.
      * apply last_None in Hl. rewrite Hl. cbn [app begin eta] in *. exact Hrest.
Qed.

(** X10. In every state Stream reaches, the next poll is due five minutes
    after the cursor as soon as anything was sent; while nothing was sent,
    the cursor is the caller's begin and the poll is due at once (eta is the
    time Stream started). *)
Theorem Stream_eta_follows_cursor begin0 start polls acts st :
  Stream begin0 start polls = (acts, Some st) ->
  (sent acts = [] /\ begin st = begin0 /\ eta st = start)
  \/ (sent acts <> [] /\ eta st = Add (begin st) (5 * Minute)).
Proof. intros H. apply loop_eta in H. exact H. Qed.

Lemma Stream_eta_follows_cursor_witness :
  exists acts st,
    Stream (Unix 1000 0) (Unix 1010 0) three_polls = (acts, Some st)
    /\ sent acts <> [] /\ eta st = Add (begin st) (5 * Minute).
Proof.
  exists (fst (Stream (Unix 1000 0) (Unix 1010 0) three_polls)),
    (mkState (Unix 1900 0) (Unix 2200 0) 0 0).
  split; [vm_compute; reflexivity|].
  destruct (Stream_eta_follows_cursor (Unix 1000 0) (Unix 1010 0) three_polls
              (fst (Stream (Unix 1000 0) (Unix 1010 0) three_polls))
              (mkState (Unix 1900 0) (Unix 2200 0) 0 0) eq_refl)
    as [(Hnil & _)|H]; [discriminate Hnil|exact H].
Defined.

Lemma fresh_sublist (b : Time) (ents : list Entry) : sublist (fresh b ents) ents.
Proof.
  induction ents as [|e ents IH]; [constructor|].
  cbn [fresh List.filter]. fold (fresh b ents).
  destruct (After (Time_ e) b); constructor; exact IH.
Qed.

Lemma loop_sent_from_batches (polls : list poll) :
  forall st,
    sublist (sent (fst (loop st polls))) (concat (List.map tail_entries polls))
    /\ Forall (fun e => begin st < Time_ e) (sent (fst (loop st polls))).
Proof.
  induction polls as [|p polls IH]; intros st.
  - split; constructor.
  - cbn [loop List.map concat]. destruct (tail_err p) as [e|] eqn:Herr.
    + destruct (turn_failed st p e Herr) as (a & -> & Hsent). cbn [fst].
      rewrite sent_app, Hsent. split; [apply sublist_nil_l|constructor].
    + destruct (turn_spec st p Herr) as (a & Ha & Hsent).
      pose proof (turn_cursor_le _ _ _ _ Ha) as Hle. rewrite Ha.
      match goal with |- context [loop ?st1 polls] =>
        destruct (IH st1) as [IHsub IHnew]; set (st' := st1) in *;
        destruct (loop st' polls) as [a' fin] end.
      cbn [fst] in *. rewrite sent_app, Hsent. split.
      * apply sublist_app; [apply fresh_sublist|exact IHsub].
      * apply Forall_app. split; [apply fresh_newer|].
        eapply Forall_impl; [exact IHnew|]. cbn. intros x Hx.
        eapply Z.le_lt_trans; [exact Hle|exact Hx].
Qed.

(** X11. Whatever the batches are, ascending or not: what Stream sends is
    taken from the fetched batches in the order in which they came, nothing
    is sent that was not fetched and nothing is reordered, and every entry
    sent is strictly newer than the caller's begin. *)
Theorem Stream_sends_from_batches begin0 start polls :
  sublist (sent (fst (Stream begin0 start polls)))
          (concat (List.map tail_entries polls))
  /\ Forall (fun e => begin0 < Time_ e) (sent (fst (Stream begin0 start polls))).
Proof. unfold Stream. apply (loop_sent_from_batches polls). Qed.
End StreamSchedule.

(** * Further properties of package trigger *)

Section TriggerFurther.
Import trigger.

Lemma map_ext_Forall {A B : Type} (f g : A -> B) (l : list A) :
  Forall (fun x => f x = g x) l -> List.map f l = List.map g l.
Proof. induction 1 as [|x l H HF IH]; cbn; [reflexivity|]. rewrite H, IH. reflexivity. Qed.

(** X12. A trigger keeps no more than the last two entries: for every
    trigger tree in any state, observing a sequence that ends with e0, e1
    leaves it as observing just e0, e1 does. *)
Theorem observes_keeps_two (t : Trigger) (es : list dex.Entry) (e0 e1 : dex.Entry) :
  observes t (es ++ [e0; e1]) = observes t [e0; e1].
Proof.
  induction t as [p cur|p last cur|a IH|a IH] using Trigger_tree_ind.
  - change [e0; e1] with ([e0] ++ [e1]). rewrite app_assoc, !observes_predicate.
    reflexivity.
  - rewrite observes_predicate2. reflexivity.
  - rewrite !observes_any. f_equal. apply map_ext_Forall. exact IH.
  - rewrite !observes_all. f_equal. apply map_ext_Forall. exact IH.
Qed.

Lemma range_all_false (a : list Trigger) : range_all Active false a = Returns false.
Proof. induction a as [|t a IH]; [reflexivity|exact IH]. Qed.

Lemma range_all_app (a b : list Trigger) :
  forall active,
    range_all Active active (a ++ b)
    = bind (range_all Active active a) (fun r => range_all Active r b).
Proof.
  induction a as [|t a IH]; intros active; [reflexivity|].
  cbn [app range_all]. destruct active.
  - destruct (Active t) as [r|]; [|reflexivity]. cbn [bind]. apply IH.
  - apply IH.
Qed.

Lemma range_any_app (a b : list Trigger) :
  range_any Active (a ++ b)
  = bind (range_any Active a)
         (fun r => if r then Returns true else range_any Active b).
Proof.
  induction a as [|t a IH]; [reflexivity|].
  cbn [app range_any]. destruct (Active t) as [[]|]; try reflexivity.
  cbn [bind]. exact IH.
Qed.

(** X13. All asks its children in order and no further than the first one
    that is not active; Any asks no further than the first one that is
    active. The children after that one are not called, so they cannot make
    Active panic even with nothing observed. *)
Theorem combinators_stop_early (a : list Trigger) (t : Trigger) (rest : list Trigger) :
  (Forall (fun c => Active c = Returns true) a ->
   Active t = Returns false ->
   Active (All (a ++ t :: rest)) = Returns false)
  /\ (Forall (fun c => Active c = Returns false) a ->
      Active t = Returns true ->
      Active (Any (a ++ t :: rest)) = Returns true).
Proof.
  split; intros Ha Ht; unfold All, Any; cbn [Active].
  - rewrite range_all_app.
    replace (range_all Active true a) with (Returns true).
    + cbn [bind range_all]. rewrite Ht. cbn [bind]. apply range_all_false.
    + symmetry. induction Ha as [|c a Hc Ha IH]; [reflexivity|].
      cbn [range_all]. rewrite Hc. exact IH.
  - rewrite range_any_app.
    replace (range_any Active a) with (Returns false).
    + cbn [bind range_any]. rewrite Ht. reflexivity.
    + symmetry. induction Ha as [|c a Hc Ha IH]; [reflexivity|].
      cbn [range_any]. rewrite Hc. exact IH.
Qed.

Lemma combinators_stop_early_witness :
  Active (All ([observes (Above 70) [reading 0 150]]
               ++ observes (Below 100) [reading 0 150] :: [Below 180]))
  = Returns false
  /\ Active (Any ([observes (Below 70) [reading 0 150]]
                  ++ observes (Above 100) [reading 0 150] :: [Below 180]))
     = Returns true
  /\ Active (Below 180) = NilPanic.
Proof.
  destruct (combinators_stop_early [observes (Above 70) [reading 0 150]]
              (observes (Below 100) [reading 0 150]) [Below 180]) as [Hall _].
  destruct (combinators_stop_early [observes (Below 70) [reading 0 150]]
              (observes (Above 100) [reading 0 150]) [Below 180]) as [_ Hany].
  split; [apply Hall; [repeat constructor|reflexivity]|].
  split; [apply Hany; [repeat constructor|reflexivity]|reflexivity].
Defined.

(** X14. Nesting does not change when a combinator is active: an Any whose
    first child is an Any is active exactly when the Any over the children
    of both is, and the same for All; this holds in every state, panics
    included. *)
Theorem combinators_flatten (a b : list Trigger) :
  Active (Any (Any a :: b)) = Active (Any (a ++ b))
  /\ Active (All (All a :: b)) = Active (All (a ++ b)).
Proof.
  unfold Any, All. split.
  - cbn [Active range_any]. rewrite range_any_app. reflexivity.
  - cbn [Active range_all]. rewrite range_all_app. reflexivity.
Qed.

(** X15. A combinator without children: All() is always active and Any()
    never, before and after any observations, and they describe themselves
    as "All()" and "Any()". *)
Theorem combinators_without_children (es : list dex.Entry) :
  Active (observes (All []) es) = Returns true
  /\ String_ (observes (All []) es) = Returns "All()"
  /\ Active (observes (Any []) es) = Returns false
  /\ String_ (observes (Any []) es) = Returns "Any()".
Proof.
  unfold All, Any. rewrite observes_all, observes_any. repeat split.
Qed.

Lemma nonempty_append_r (a b : string) :
  nonempty b = true -> nonempty (String.append a b) = true.
Proof. destruct a; [rewrite append_nil; auto|reflexivity]. Qed.

Lemma Below_text (bg : Z) (e : dex.Entry) :
  Active (predicateTrigger
            (fun e => if dex.Value e <? bg
                      then String.append (itoa (dex.Value e))
                             (String.append " < " (itoa bg))
                      else "") (Some e))
  = Returns (dex.Value e <? bg).
Proof.
  cbn [Active deref bind]. destruct (dex.Value e <? bg); [|reflexivity].
  rewrite nonempty_append_r; reflexivity.
Qed.

Lemma Above_text (bg : Z) (e : dex.Entry) :
  Active (predicateTrigger
            (fun e => if bg <? dex.Value e
                      then String.append (itoa (dex.Value e))
                             (String.append " > " (itoa bg))
                      else "") (Some e))
  = Returns (bg <? dex.Value e).
Proof.
  cbn [Active deref bind]. destruct (bg <? dex.Value e); [|reflexivity].
  rewrite nonempty_append_r; reflexivity.
Qed.

(** X16. After one or more observations, Below(bg) is active exactly when
    the last value is under bg and Above(bg) exactly when it is over bg, so
    the two are never active together; All(Above(lo), Below(hi)) is active
    exactly for a last value strictly between lo and hi, and
    Any(Below(lo), Above(hi)) exactly for one outside lo..hi. *)
Theorem threshold_triggers (bg lo hi : Z) (es : list dex.Entry) (e : dex.Entry) :
  Active (observes (Below bg) (es ++ [e])) = Returns (dex.Value e <? bg)
  /\ Active (observes (Above bg) (es ++ [e])) = Returns (bg <? dex.Value e)
  /\ ~ (Active (observes (Below bg) (es ++ [e])) = Returns true
        /\ Active (observes (Above bg) (es ++ [e])) = Returns true)
  /\ Active (observes (All [Above lo; Below hi]) (es ++ [e]))
     = Returns ((lo <? dex.Value e) && (dex.Value e <? hi))
  /\ Active (observes (Any [Below lo; Above hi]) (es ++ [e]))
     = Returns ((dex.Value e <? lo) || (hi <? dex.Value e)).
Proof.
  assert (forall bg, Active (observes (Below bg) (es ++ [e])) = Returns (dex.Value e <? bg))
    as HB by (intros b; unfold Below, Predicate; rewrite observes_predicate;
              apply Below_text).
  assert (forall bg, Active (observes (Above bg) (es ++ [e])) = Returns (bg <? dex.Value e))
    as HA by (intros b; unfold Above, Predicate; rewrite observes_predicate;
              apply Above_text).
  split; [apply HB|]. split; [apply HA|]. split; [|split].
  - rewrite HB, HA. intros [[= H1] [= H2]].
    apply Z.ltb_lt in H1. apply Z.ltb_lt in H2. lia.
  - unfold All. rewrite observes_all. cbn [List.map Active range_all].
    rewrite HA. cbn [bind]. destruct (lo <? dex.Value e); cbn [andb].
    + rewrite HB. cbn [bind]. reflexivity.
    + reflexivity.
  - unfold Any. rewrite observes_any. cbn [List.map Active range_any].
    rewrite HB. cbn [bind]. destruct (dex.Value e <? lo); cbn [orb]; [reflexivity|].
    rewrite HA. cbn [bind]. destruct (hi <? dex.Value e); reflexivity.
Qed.
End TriggerFurther.

Section GlyphsAndArrows.
Import trigger.

Lemma Arrow_glyph_nonempty (d : dex.Dir) : nonempty (dex.Arrow d) = negb (d =? 0).
Proof.
  destruct d as [|p|p]; [reflexivity| |reflexivity].
  do 3 (try destruct p as [p|p|]); reflexivity.
Qed.

Lemma glyph_cases (d : dex.Dir) :
  (d = 0 \/ d = 1 \/ d = 2 \/ d = 3 \/ d = 4 \/ d = 5 \/ d = 6 \/ d = 7)
  \/ ((d < 0 \/ 7 < d) /\ dex.Arrow d = "?" /\ dex.Emoji d = "?").
Proof.
  destruct d as [|p|p]; [left; lia| |right; split; [lia|split; reflexivity]].
  do 3 (try destruct p as [p|p|]);
    first [left; lia|right; split; [lia|split; reflexivity]].
Qed.

Ltac glyph_facts :=
  repeat split; intros; first [reflexivity|discriminate|lia|assumption].

(** X17. The eight trends from None to DoubleDown have glyphs that differ
    from one another, in Arrow and in Emoji; None is the empty string in
    both, and every other value of Dir, NotComputable and RateOutOfRange with
    it, is the question mark in both. *)
Theorem glyphs_by_trend (d : dex.Dir) :
  (dex.Arrow d = "" <-> d = dex.DirNone)
  /\ (dex.Emoji d = "" <-> d = dex.DirNone)
  /\ (dex.Arrow d = "?" <-> (d < 0 \/ 7 < d))
  /\ (dex.Emoji d = "?" <-> (d < 0 \/ 7 < d))
  /\ NoDup (List.map dex.Arrow [0; 1; 2; 3; 4; 5; 6; 7])
  /\ NoDup (List.map dex.Emoji [0; 1; 2; 3; 4; 5; 6; 7]).
Proof.
  unfold dex.DirNone.
  assert (NoDup (List.map dex.Arrow [0; 1; 2; 3; 4; 5; 6; 7])
          /\ NoDup (List.map dex.Emoji [0; 1; 2; 3; 4; 5; 6; 7])) as [HnA HnE].
  { split; apply (bool_decide_unpack _); vm_compute; reflexivity. }
  destruct (glyph_cases d) as [Hc|(Hr & HA & HE)].
  - repeat destruct Hc as [->|Hc]; try subst d;
      (split; [|split; [|split; [|split; [|split; [exact HnA|exact HnE]]]]]);
      glyph_facts.
  - split; [|split; [|split; [|split; [|split; [exact HnA|exact HnE]]]]];
      rewrite ?HA, ?HE; glyph_facts.
Qed.

Lemma Arrow_range (dir : list dex.Dir) (e : dex.Entry) :
  (fix range (dir : list dex.Dir) : string :=
     match dir with
     | [] => ""
     | d :: dir' => if d =? dex.Dir_ e then dex.Arrow d else range dir'
     end) dir
  = if existsb (fun d => d =? dex.Dir_ e) dir then dex.Arrow (dex.Dir_ e) else "".
Proof.
  induction dir as [|d dir IH]; [reflexivity|]. cbn [existsb].
  destruct (d =? dex.Dir_ e) eqn:Hd; cbn [orb].
  - apply Z.eqb_eq in Hd. rewrite Hd. reflexivity.
  - exact IH.
Qed.

(** X18. After one or more observations, Arrow(dir...) is active exactly
    when the trend of the last entry is one of dir and is not None, and it
    describes itself by the glyph of that trend: a None listed in dir never
    makes the trigger active. An entry Tail made from a trend code outside
    0..9 has the trend None, so no Arrow trigger is active on it. *)
Theorem Arrow_trigger (dir : list dex.Dir) (es : list dex.Entry) (e : dex.Entry) :
  Active (observes (Arrow dir) (es ++ [e]))
  = Returns (existsb (fun d => d =? dex.Dir_ e) dir && negb (dex.Dir_ e =? dex.DirNone))
  /\ String_ (observes (Arrow dir) (es ++ [e]))
     = Returns (if existsb (fun d => d =? dex.Dir_ e) dir
                then dex.Arrow (dex.Dir_ e) else "")
  /\ (forall code,
         (code < 0 \/ 9 < code) ->
         dex.Dir_ e = dex.index dex.numToDir code ->
         Active (observes (Arrow dir) (es ++ [e])) = Returns false).
Proof.
  assert (Active (observes (Arrow dir) (es ++ [e]))
          = Returns (existsb (fun d => d =? dex.Dir_ e) dir
                     && negb (dex.Dir_ e =? dex.DirNone))) as HA.
  { unfold Arrow, Predicate. rewrite observes_predicate. cbn [Active deref bind].
    rewrite Arrow_range.
    destruct (existsb (fun d => d =? dex.Dir_ e) dir); cbn [andb]; [|reflexivity].
    rewrite Arrow_glyph_nonempty. reflexivity. }
  split; [exact HA|]. split.
  - unfold Arrow, Predicate. rewrite observes_predicate. cbn [String_ deref bind].
    rewrite Arrow_range. reflexivity.
  - intros code Hcode He. rewrite HA, He, index_numToDir.
    replace ((0 <=? code) && (code <=? 9)) with false.
    + rewrite andb_false_r. reflexivity.
    + symmetry. apply andb_false_iff.
      destruct Hcode; [left; apply Z.leb_gt|right; apply Z.leb_gt]; lia.
Qed.

Lemma Arrow_trigger_witness :
  Active (observes (Arrow [dex.DirNone; dex.DoubleDown])
            ([] ++ [dex.mkEntry (dex.Unix 0 0) 90 (dex.index dex.numToDir 42) ""]))
  = Returns false.
Proof.
  destruct (Arrow_trigger [dex.DirNone; dex.DoubleDown] []
              (dex.mkEntry (dex.Unix 0 0) 90 (dex.index dex.numToDir 42) ""))
    as (_ & _ & H).
  apply (H 42); [right; lia|reflexivity].
Defined.
End GlyphsAndArrows.

Section DeltaFurther.
Import trigger.

(** X19. A falling alarm and a rising alarm do not fire together: on the
    same two entries, when Delta(d1) with d1 below zero is active, Delta(d2)
    with d2 above zero is not. *)
Theorem Delta_directions_exclusive (d1 d2 : float64) (es : list dex.Entry)
    (e0 e1 : dex.Entry) :
  flt d1 fzero = true ->
  fgt d2 fzero = true ->
  Active (observes (Delta d1) (es ++ [e0; e1])) = Returns true ->
  Active (observes (Delta d2) (es ++ [e0; e1])) = Returns false.
Proof.
  intros Hd1 Hd2. rewrite !Delta_after_two. unfold crosses.
  rewrite (fgt_zero_asym _ Hd1), (flt_zero_asym _ Hd2), Hd1, Hd2.
  rewrite !andb_false_r, !andb_true_r, orb_false_r. cbn [andb orb].
  intros [= H]. apply andb_true_iff in H as [Hr _].
  rewrite (fgt_zero_asym _ Hr). reflexivity.
Qed.

Lemma Delta_directions_exclusive_witness :
  Active (observes (Delta (float64_of_int 2)) ([] ++ [reading 0 150; reading 5 130]))
  = Returns false.
Proof.
  apply (Delta_directions_exclusive (float64_of_int (-2)) (float64_of_int 2) []
           (reading 0 150) (reading 5 130)); vm_compute; reflexivity.
Defined.

(** X20. Two entries with the same time: the division by zero minutes does
    not panic, the rate is an infinity or NaN and never a finite number;
    when the values are equal too it is NaN, and no Delta trigger is active
    on the pair, whatever its threshold. *)
Theorem Delta_same_time (e0 e1 : dex.Entry) :
  dex.Time_ e0 = dex.Time_ e1 ->
  match rate e0 e1 with
  | S754_nan | S754_infinity _ => True
  | _ => False
  end
  /\ (dex.Value e0 = dex.Value e1 ->
      rate e0 e1 = S754_nan
      /\ forall d es, Active (observes (Delta d) (es ++ [e0; e1])) = Returns false).
Proof.
  intros Ht.
  assert (dex.Minutes (dex.Sub (dex.Time_ e1) (dex.Time_ e0)) = S754_zero false) as Hm.
  { rewrite Ht. unfold dex.Sub. rewrite Z.sub_diag. vm_compute. reflexivity. }
  split.
  - unfold rate. rewrite Hm.
    destruct (float64_of_int (wrap64 (dex.Value e1 - dex.Value e0))) as [s|s| |s m e];
      exact I.
  - intros Hv.
    assert (rate e0 e1 = S754_nan) as Hr.
    { unfold rate. rewrite Hm, Hv, Z.sub_diag. vm_compute. reflexivity. }
    split; [exact Hr|]. intros d es. rewrite Delta_after_two, Hr. reflexivity.
Qed.

Lemma Delta_same_time_witness :
  rate (reading 5 150) (reading 5 150) = S754_nan
  /\ Active (observes (Delta (float64_of_int (-2))) ([] ++ [reading 5 150; reading 5 150]))
     = Returns false.
Proof.
  destruct (Delta_same_time (reading 5 150) (reading 5 150) eq_refl) as [_ H].
  destruct (H eq_refl) as [Hr Ha]. split; [exact Hr|apply Ha].
Defined.
End DeltaFurther.

Section ErrsFurther.
Import trigger.

Lemma fold_record (rs : list (option string)) :
  forall acc, fold_left record rs acc = acc ++ omap id rs.
Proof.
  induction rs as [|r rs IH]; intros acc; cbn [fold_left].
  - cbn. rewrite app_nil_r. reflexivity.
  - rewrite IH. destruct r as [m|]; cbn [record]; [|reflexivity].
    rewrite <- app_assoc. reflexivity.
Qed.

Lemma string_append_assoc (a b c : string) :
  String.append (String.append a b) c = String.append a (String.append b c).
Proof. induction a as [|x a IH]; [reflexivity|]. rewrite !append_cons, IH. reflexivity. Qed.

Lemma concat_snoc (sep : string) (ms : list string) :
  forall m0 m,
    String.concat sep ((m0 :: ms) ++ [m])
    = String.append (String.concat sep (m0 :: ms)) (String.append sep m).
Proof.
  induction ms as [|m1 ms IH]; intros m0 m; [reflexivity|].
  change (String.concat sep ((m0 :: m1 :: ms) ++ [m]))
    with (String.append m0 (String.append sep (String.concat sep ((m1 :: ms) ++ [m])))).
  rewrite IH.
  change (String.concat sep (m0 :: m1 :: ms))
    with (String.append m0 (String.append sep (String.concat sep (m1 :: ms)))).
  rewrite !string_append_assoc. reflexivity.
Qed.

(** X21. What a combinator makes of the errors of its children: nil when
    every child returned nil, and otherwise one error whose text is the
    texts of the errors that were not nil, in the order of the children,
    with a comma between each two; no error is dropped and none stops the
    loop. Three children failing with "a", "b" and "c" among others that do
    not fail give "a,b,c"; one child failing gives its text unchanged. *)
Theorem errs_joins_all (rs : list (option string)) :
  err (fold_left record rs [])
  = match omap id rs with
    | [] => None
    | m :: ms => Some (String.concat "," (m :: ms))
    end
  /\ (err (fold_left record rs []) = None <-> Forall (fun r => r = None) rs)
  /\ (forall m, err (fold_left record (rs ++ [Some m]) [])
                = Some match omap id rs with
                       | [] => m
                       | m0 :: ms =>
                           String.append (String.concat "," (m0 :: ms))
                             (String.append "," m)
                       end)
  /\ err (fold_left record [None; Some "a"; None; Some "b"; Some "c"; None] [])
     = Some "a,b,c"
  /\ err (fold_left record [None; Some "no entry"; None] []) = Some "no entry".
Proof.
  rewrite !fold_record. cbn [app]. split; [|split; [|split]].
  - destruct (omap id rs); reflexivity.
  - induction rs as [|r rs IH]; [split; [constructor|reflexivity]|].
    destruct r as [m|]; cbn.
    + split; [discriminate|]. intros H. apply Forall_cons in H as [H _]. discriminate H.
    + rewrite IH. split; [intros H; constructor; [reflexivity|exact H]|].
      intros H. apply Forall_cons in H as [_ H]. exact H.
  - intros m. rewrite fold_record, omap_app. cbn [app].
    change (omap id [Some m]) with [m].
    destruct (omap id rs) as [|m0 ms]; [reflexivity|].
    rewrite <- concat_snoc. reflexivity.
  - split; reflexivity.
Qed.

(** X22. For the four trigger kinds of the package, Observe returns a nil
    error on every tree, in every state. *)
Theorem Observe_never_fails (t : Trigger) (es : list dex.Entry) (e : dex.Entry) :
  snd (Observe (observes t es) e) = None.
Proof. apply Observe_no_error. Qed.
End ErrsFurther.

Section DialFurther.
Import dex.

(** X23. Dial returns a session or an error, never both and never neither.
    The session it returns carries the user and the password it was given
    and the path made of the prefix and the user. With a saved token that
    decodes, the session has that token and Dial has not logged in at all;
    without one, Dial logs in once, the session has the token of that login,
    and a save that fails does not make Dial fail; the error Dial returns is
    the error of the login. *)
Theorem Dial_outcomes (user pass prefix : string) (saved : option string)
    (r : LoginResult) :
  match Dial user pass prefix saved r with
  | (Some s, None, fx) =>
      dex.user s = user /\ dex.pass s = pass
      /\ path s = String.append prefix user
      /\ logins fx = match saved with Some _ => 0%nat | None => 1%nat end
      /\ match saved with
         | Some tok => token s = tok /\ fx = []
         | None => exists ok, r = LoginOk (token s) ok
         end
  | (None, Some e, fx) => saved = None /\ r = LoginFail e /\ fx = [Login user]
  | _ => False
  end.
Proof.
  unfold Dial, restore. destruct saved as [tok|].
  - cbn. repeat split.
  - destruct r as [e|tok ok].
    + repeat split.
    + cbn [dex.user dex.pass path token]. repeat split.
      * destruct ok; reflexivity.
      * exists ok. reflexivity.
Qed.
End DialFurther.

Section StreamSleeps.
Import dex.

Lemma sleeps_app (a b : list action) : sleeps (a ++ b) = sleeps a ++ sleeps b.
Proof. apply omap_app. Qed.

Lemma sleeps_Send (ens : list Entry) : sleeps (List.map Send ens) = [].
Proof. induction ens as [|e ens IH]; [reflexivity|exact IH]. Qed.

Lemma turn_sleeps (st : state) (p : poll) :
  sleeps (fst (turn st p))
  = (if After (eta st) (now p) then [Sub (eta st) (now p)] else []) ++ [penalty st].
Proof.
  unfold turn. destruct (tail_err p) as [e|].
  - cbn [fst]. rewrite !sleeps_app. destruct (After (eta st) (now p)); reflexivity.
  - rewrite scan_spec.
    destruct (last (fresh (begin st) (tail_entries p))); cbn [fst];
      rewrite !sleeps_app, sleeps_Send; destruct (After (eta st) (now p));
      reflexivity.
Qed.

Lemma loop_sleeps (polls : list poll) :
  forall st,
    penalty_in_range st ->
    Forall (fun d => 0 <= d <= maxInt64) (sleeps (fst (loop st polls))).
Proof.
  induction polls as [|p polls IH]; intros st Hinv; [constructor|].
  assert (Forall (fun d => 0 <= d <= maxInt64) (sleeps (fst (turn st p)))) as Hturn.
  { rewrite turn_sleeps. apply Forall_app. split.
    - destruct (After (eta st) (now p)) eqn:Ha; [|constructor].
      unfold After in Ha. apply Z.ltb_lt in Ha.
      constructor; [|constructor]. unfold Sub, minInt64, maxInt64. lia.
    - destruct Hinv as (k & Hk & ->). constructor; [|constructor].
      unfold Second, maxInt64. lia. }
  cbn [loop]. destruct (turn st p) as [acts [st1|]] eqn:Ht; cbn [fst] in *.
  - assert (penalty_in_range st1) as Hinv1.
    { apply (loop_penalty_in_range [p] st (acts ++ []) st1 Hinv).
      cbn [loop]. rewrite Ht. reflexivity. }
    specialize (IH st1 Hinv1). destruct (loop st1 polls) as [acts' fin].
    cbn [fst] in *. rewrite sleeps_app. apply Forall_app. split; assumption.
  - rewrite sleeps_app. apply Forall_app. split; [exact Hturn|constructor].
Qed.

(** X24. Stream never asks for a negative sleep: every duration it passes
    to time.Sleep, the wait for eta (made only when eta is after the clock)
    and the penalty, is zero or more. *)
Theorem Stream_sleeps_are_not_negative begin0 start polls :
  Forall (fun d => 0 <= d <= maxInt64) (sleeps (fst (Stream begin0 start polls))).
Proof.
  unfold Stream. apply loop_sleeps. exists 0. split; [lia|reflexivity].
Qed.
End StreamSleeps.
